(** * Call-recording sentiment pipeline (joeywhelan/sentiment)

    A shallow embedding of the webhook handler and of the three classes
    it drives ([Admin], [Sentiment], [GCStorage]), together with the
    properties of the fulfilment pipeline.

    The JavaScript is promise based.  A promise chain is embedded as a
    finite tree of suspended computations ([Task]); the event loop is a
    step function on configurations that delivers the completion of one
    outstanding operation at a time, in whatever order the environment
    chooses. *)

From Stdlib Require Import String Ascii List ZArith Bool DecimalString.
From ExtLib Require Import Structures.Monad Structures.MonadExc.
From ExtLib Require Import Data.Monads.EitherMonad.
Import ListNotations.
Import MonadNotation.
Local Open Scope list_scope.
Local Open Scope string_scope.
Local Open Scope monad_scope.
Set Warnings "-register-all".

(* ===================================================================== *)
(** ** JavaScript values *)
(* ===================================================================== *)

Module JS.

(** Values as the code sees them: what [JSON.parse] produces, plus
    [undefined].  Numbers are the integer-valued ones (status codes and
    lengths are all the code computes with); an object keeps its own
    properties in insertion order. *)
Inductive Val : Type :=
| JUndef
| JNull
| JBool (b : bool)
| JNum (z : Z)
| JStr (s : string)
| JArr (elems : list Val)
| JObj (props : list (string * Val)).

(** An [Error] object: [name] is "Error", "TypeError", ... *)
Record Err : Type := mkErr { name : string; message : string }.

Definition Error (msg : string) : Err := mkErr "Error" msg.
Definition TypeError (msg : string) : Err := mkErr "TypeError" msg.

(** Synchronous evaluation of an expression either throws or yields. *)
Abbreviation Eval := (sum Err).

(** ToBoolean. *)
Definition truthy (v : Val) : bool :=
  match v with
  | JUndef | JNull => false
  | JBool b => b
  | JNum z => negb (z =? 0)%Z
  | JStr s => negb (s =? "")
  | JArr _ | JObj _ => true
  end.

Definition string_of_Z (z : Z) : string := NilZero.string_of_int (Z.to_int z).
Definition string_of_nat (n : nat) : string := string_of_Z (Z.of_nat n).

(** ToString, as applied by template literals and by [+] with a string
    operand.  [Array.prototype.join] prints [null] and [undefined]
    elements as the empty string. *)
Fixpoint toStr (v : Val) : string :=
  match v with
  | JUndef => "undefined"
  | JNull => "null"
  | JBool true => "true"
  | JBool false => "false"
  | JNum z => string_of_Z z
  | JStr s => s
  | JArr elems =>
      (fix join (l : list Val) : string :=
         match l with
         | [] => ""
         | x :: rest =>
             let sx := match x with JUndef | JNull => "" | _ => toStr x end in
             match rest with
             | [] => sx
             | _ :: _ => sx ++ "," ++ join rest
             end
         end) elems
  | JObj _ => "[object Object]"
  end.

(** [Error.prototype.toString]. *)
Definition errStr (e : Err) : string :=
  if message e =? "" then name e
  else if name e =? "" then message e
  else name e ++ ": " ++ message e.

Fixpoint lookup (k : string) (props : list (string * Val)) : option Val :=
  match props with
  | [] => None
  | (k', v) :: rest => if k =? k' then Some v else lookup k rest
  end.

Definition char_at (s : string) (i : nat) : Val :=
  match String.get i s with
  | Some c => JStr (String c EmptyString)
  | None => JUndef
  end.

(** [v.p] for an identifier [p].  Reading a property of [null] or
    [undefined] throws; a missing property reads as [undefined].  The
    identifiers of the source are never array indices. *)
Definition getProp (v : Val) (p : string) : Eval Val :=
  match v with
  | JUndef => inl (TypeError ("Cannot read property '" ++ p ++ "' of undefined"))
  | JNull => inl (TypeError ("Cannot read property '" ++ p ++ "' of null"))
  | JBool _ | JNum _ => inr JUndef
  | JStr s => inr (if p =? "length" then JNum (Z.of_nat (String.length s)) else JUndef)
  | JArr elems => inr (if p =? "length" then JNum (Z.of_nat (List.length elems)) else JUndef)
  | JObj props => inr (match lookup p props with Some x => x | None => JUndef end)
  end.

(** [v[i]] for a numeric literal [i]. *)
Definition getIndex (v : Val) (i : nat) : Eval Val :=
  match v with
  | JUndef => inl (TypeError ("Cannot read property '" ++ string_of_nat i ++ "' of undefined"))
  | JNull => inl (TypeError ("Cannot read property '" ++ string_of_nat i ++ "' of null"))
  | JBool _ | JNum _ => inr JUndef
  | JStr s => inr (char_at s i)
  | JArr elems => inr (nth i elems JUndef)
  | JObj props => inr (match lookup (string_of_nat i) props with Some x => x | None => JUndef end)
  end.

(** The runtime and library functions the code calls but does not define.
    [Buffer_from_base64 v] is [Buffer.from(v, 'base64')], which throws on
    values it cannot read; [StringToNumber] is the conversion the
    relational operators apply to a string ([None] for NaN). *)
Class Host : Type := {
  btoa : string -> string;
  JSON_stringify : Val -> string;
  encodeURIComponent : Val -> string;
  Buffer_from_base64 : Val -> Eval (list Byte.byte);
  StringToNumber : string -> option Z
}.

(** ToNumber; [None] is NaN. *)
Definition toNumber {host : Host} (v : Val) : option Z :=
  match v with
  | JUndef => None
  | JNull => Some 0%Z
  | JBool b => Some (if b then 1 else 0)%Z
  | JNum z => Some z
  | JStr s => StringToNumber s
  | JArr _ | JObj _ => StringToNumber (toStr v)
  end.

(** [v > 0] *)
Definition gt0 {host : Host} (v : Val) : bool :=
  match toNumber v with
  | Some z => (0 <? z)%Z
  | None => false
  end.

End JS.
Import JS.

(* ===================================================================== *)
(** ** Promises and the event loop *)
(* ===================================================================== *)

Module Async.

(** An outbound HTTP request as handed to [fetch]. *)
Record Request : Type := mkRequest {
  url : string;
  method : string;
  body : option string;
  headers : list (string * string);
  cache : string;
  mode : string
}.

(** What the code reads of a [fetch] response before it reads the body. *)
Record Response : Type := mkResponse { status : Z; statusText : string }.

(** [response.ok]: the status is in the range 200-299. *)
Definition ok (r : Response) : bool := ((200 <=? status r) && (status r <? 300))%Z.

(** What is piped into a write stream: a [Buffer] or any other value. *)
Inductive Content : Type :=
| Buffer (bytes : list Byte.byte)
| Plain (v : Val).

(** The operations that complete in a later turn of the event loop. *)
Inductive Op : Type :=
| Fetch (req : Request)
| ReadJson (resp : Response)
| WriteStream (blob : string) (content : Content).

(** What the code's callback receives when the operation completes:
    [fetch] and [response.json()] resolve or reject; a write stream emits
    'finish' ([None]) or 'error'. *)
Definition answer (op : Op) : Type :=
  match op with
  | Fetch _ => Eval Response
  | ReadJson _ => Eval Val
  | WriteStream _ _ => option Err
  end.

Inductive Level : Type := info | error.

(** Effects that happen at once: a log line, the reply to the webhook. *)
Inductive Effect : Type :=
| Log (lvl : Level) (line : string)
| Respond (code : Z).

(** A promise-returning computation.  [Fork child k] calls a
    promise-returning function and drops its promise. *)
Inductive Task (A : Type) : Type :=
| Ret (a : A)
| Throw (e : Err)
| Do (eff : Effect) (k : Task A)
| Await (op : Op) (k : answer op -> Task A)
| Fork (child : Task unit) (k : Task A).

Arguments Ret {A} a.
Arguments Throw {A} e.
Arguments Do {A} eff k.
Arguments Await {A} op k.
Arguments Fork {A} child k.

(** [p.then(f)] *)
Fixpoint then_ {A B : Type} (t : Task A) (f : A -> Task B) : Task B :=
  match t with
  | Ret a => f a
  | Throw e => Throw e
  | Do eff k => Do eff (then_ k f)
  | Await op k => Await op (fun r => then_ (k r) f)
  | Fork child k => Fork child (then_ k f)
  end.

(** [p.catch(h)]: a dropped promise is out of the handler's reach. *)
Fixpoint catch_ {A : Type} (t : Task A) (h : Err -> Task A) : Task A :=
  match t with
  | Ret a => Ret a
  | Throw e => h e
  | Do eff k => Do eff (catch_ k h)
  | Await op k => Await op (fun r => catch_ (k r) h)
  | Fork child k => Fork child (catch_ k h)
  end.

#[export] Instance Monad_Task : Monad Task :=
  {| ret := @Ret; bind := @then_ |}.

#[export] Instance Exc_Task : MonadExc Err Task :=
  {| raise := @Throw; catch := @catch_ |}.

(** A synchronous expression evaluated inside a callback. *)
Definition lift {A : Type} (e : Eval A) : Task A :=
  match e with inl err => Throw err | inr a => Ret a end.

Definition log (lvl : Level) (line : string) : Task unit := Do (Log lvl line) (Ret tt).

(** Calling [f()] as a statement: the promise and its value are dropped. *)
Definition drop {A : Type} (t : Task A) : Task unit := then_ t (fun _ => Ret tt).

(** *** Running to the next suspension *)

(** A suspended computation: the operation it waits for and its callback. *)
Inductive Pend (A : Type) : Type :=
| pend (op : Op) (k : answer op -> Task A).
Arguments pend {A} op k.

Inductive Status (A : Type) : Type :=
| Resolved (a : A)
| Rejected (e : Err)
| Waiting (p : Pend A).
Arguments Resolved {A} a.
Arguments Rejected {A} e.
Arguments Waiting {A} p.

(** The operation's completion as the environment supplies it. *)
Inductive Reply : Type :=
| RFetch (r : Eval Response)
| RJson (r : Eval Val)
| RStream (r : option Err).

Inductive Event : Type :=
| Performed (eff : Effect)
| Issued (op : Op)
| Completed (op : Op) (r : Reply)
| Unhandled (e : Err).

(** What is left of a dropped promise once its synchronous part ran. *)
Definition leftover (s : Status unit) : list Event * list (Pend unit) :=
  match s with
  | Resolved _ => ([], [])
  | Rejected e => ([Unhandled e], [])
  | Waiting p => ([], [p])
  end.

Record Ran (A : Type) : Type := mkRan {
  events : list Event;
  spawned : list (Pend unit);
  outcome : Status A
}.
Arguments mkRan {A} events spawned outcome.
Arguments events {A} r.
Arguments spawned {A} r.
Arguments outcome {A} r.

(** Run the synchronous part: up to the first operation the computation
    itself waits for.  Dropped promises run their synchronous part in
    place and are then left to the event loop. *)
Fixpoint run {A : Type} (t : Task A) : Ran A :=
  match t with
  | Ret a => mkRan [] [] (Resolved a)
  | Throw e => mkRan [] [] (Rejected e)
  | Do eff k =>
      let r := run k in
      mkRan (Performed eff :: events r) (spawned r) (outcome r)
  | Await op k => mkRan [Issued op] [] (Waiting (pend op k))
  | Fork child k =>
      let rc := run child in
      let rk := run k in
      mkRan (events rc ++ fst (leftover (outcome rc)) ++ events rk)%list
            (spawned rc ++ snd (leftover (outcome rc)) ++ spawned rk)%list
            (outcome rk)
  end.

(** *** The event loop *)

Record Config (A : Type) : Type := mkConfig {
  main : Status A;
  background : list (Pend unit);
  trace : list Event
}.
Arguments mkConfig {A} main background trace.
Arguments main {A} c.
Arguments background {A} c.
Arguments trace {A} c.

Definition start {A : Type} (t : Task A) : Config A :=
  let r := run t in mkConfig (outcome r) (spawned r) (events r).

(** Hand a completion to the callback waiting for it; [None] when the
    completion is not of the operation's kind. *)
Definition deliver {A : Type} (p : Pend A) (r : Reply) : option (Task A) :=
  match p with
  | pend op k =>
      match op return (answer op -> Task A) -> option (Task A) with
      | Fetch _ => fun k => match r with RFetch x => Some (k x) | _ => None end
      | ReadJson _ => fun k => match r with RJson x => Some (k x) | _ => None end
      | WriteStream _ _ => fun k => match r with RStream x => Some (k x) | _ => None end
      end k
  end.

Definition op_of {A : Type} (p : Pend A) : Op := match p with pend op _ => op end.

(** The environment picks which outstanding operation completes next. *)
Inductive Choice : Type :=
| Main (r : Reply)
| Background (i : nat) (r : Reply).

Fixpoint replace_at {X : Type} (i : nat) (l : list X) (new : list X) : list X :=
  match i, l with
  | _, [] => []
  | O, _ :: rest => (new ++ rest)%list
  | S j, x :: rest => x :: replace_at j rest new
  end.

Definition step {A : Type} (c : Config A) (ch : Choice) : option (Config A) :=
  match ch with
  | Main r =>
      match main c with
      | Waiting p =>
          match deliver p r with
          | Some t =>
              let ran := run t in
              Some (mkConfig (outcome ran)
                             (background c ++ spawned ran)%list
                             (trace c ++ Completed (op_of p) r :: events ran)%list)
          | None => None
          end
      | _ => None
      end
  | Background i r =>
      match nth_error (background c) i with
      | Some p =>
          match deliver p r with
          | Some t =>
              let ran := run t in
              let rest := leftover (outcome ran) in
              Some (mkConfig (main c)
                             (replace_at i (background c) (snd rest) ++ spawned ran)%list
                             (trace c ++ Completed (op_of p) r :: events ran ++ fst rest)%list)
          | None => None
          end
      | None => None
      end
  end.

Fixpoint exec {A : Type} (c : Config A) (sched : list Choice) : option (Config A) :=
  match sched with
  | [] => Some c
  | ch :: rest =>
      match step c ch with
      | Some c' => exec c' rest
      | None => None
      end
  end.

(** Nothing is outstanding: the job is over. *)
Definition quiescent {A : Type} (c : Config A) : bool :=
  match main c, background c with
  | Waiting _, _ => false
  | _, [] => true
  | _, _ :: _ => false
  end.

(** *** Observations *)

(** The promise of [t], with the completions [replies] handed to it one
    after the other, ends up in state [s]. *)
Definition settles {A : Type} (t : Task A) (replies : list Reply) (s : Status A) : Prop :=
  option_map main (exec (start t) (map Main replies)) = Some s.

Definition resolves {A : Type} (t : Task A) (replies : list Reply) (a : A) : Prop :=
  settles t replies (Resolved a).

Definition rejects {A : Type} (t : Task A) (replies : list Reply) (e : Err) : Prop :=
  settles t replies (Rejected e).

(** The write streams opened, in order. *)
Fixpoint writes (tr : list Event) : list (string * Content) :=
  match tr with
  | [] => []
  | Issued (WriteStream blob content) :: rest => (blob, content) :: writes rest
  | _ :: rest => writes rest
  end.

(** The requests sent, in order. *)
Fixpoint requests (tr : list Event) : list Request :=
  match tr with
  | [] => []
  | Issued (Fetch req) :: rest => req :: requests rest
  | _ :: rest => requests rest
  end.

Definition is_delete (req : Request) : bool := method req =? "DELETE".

(** The log lines of a level, in order. *)
Fixpoint logged (lvl : Level) (tr : list Event) : list string :=
  match tr with
  | [] => []
  | Performed (Log l line) :: rest =>
      match lvl, l with
      | info, info | error, error => line :: logged lvl rest
      | _, _ => logged lvl rest
      end
  | _ :: rest => logged lvl rest
  end.

Definition mem (x : string) (l : list string) : bool := existsb (String.eqb x) l.

(** Every DELETE request in [tr] is sent after each blob of [blobs] has
    been written to the end ('finish'); [done] are the blobs finished so
    far. *)
Fixpoint delete_gated (blobs done : list string) (tr : list Event) : bool :=
  match tr with
  | [] => true
  | Issued (Fetch req) :: rest =>
      (if is_delete req then forallb (fun b => mem b done) blobs else true)
      && delete_gated blobs done rest
  | Completed (WriteStream blob _) (RStream None) :: rest =>
      delete_gated blobs (blob :: done) rest
  | _ :: rest => delete_gated blobs done rest
  end.

End Async.
Import Async.

(* ===================================================================== *)
(** ** properties.js *)
(* ===================================================================== *)

Module properties.

Definition incontactVersion := "v11.0".
Definition incontactName := "yourName".
Definition incontactVendor := "yourName".
Definition incontactKey := "yourKey".
Definition incontactTokenUrl := "https://api.incontact.com/InContactAuthorizationServer/Token".
Definition incontactUser := "yourUser".
Definition incontactPwd := "yourPwd".

Definition gcpKey := "yourKey".
Definition gcpSttUrl := "https://speech.googleapis.com/v1/speech:recognize?key=" ++ gcpKey.
Definition gcpSntUrl := "https://language.googleapis.com/v1/documents:analyzeSentiment?key=" ++ gcpKey.
Definition gcpBucket := "yourBucket".

Definition path := "/process".
Definition listenPort := 9080%Z.

End properties.

(** [fetch(url, init)] and [response.json()] *)
Definition fetch (req : Request) : Task Response := Await (Fetch req) lift.
Definition json_of (response : Response) : Task Val := Await (ReadJson response) lift.

(** The first callback of every REST wrapper. *)
Definition body_or_status (response : Response) : Task Val :=
  if ok response then json_of response
  else
    let msg := "Response status: " ++ string_of_Z (status response) in
    Throw (Error msg).

(* ===================================================================== *)
(** ** admin.js: class Admin *)
(* ===================================================================== *)

Module Admin.
Section WithHost.
Context {host : Host}.

Record t : Type := { key : string }.

Definition constructor : t :=
  {| key := btoa (properties.incontactName ++ "@" ++ properties.incontactVendor ++
                  ":" ++ properties.incontactKey) |}.

(** [this.key], where a parameter of the same name is in scope. *)
Definition this_key (this : t) : string := key this.

(** [json && json.access_token && json.resource_server_base_uri] *)
Definition token_present (json : Val) : Eval bool :=
  if truthy json then
    access_token <- getProp json "access_token" ;;
    if truthy access_token then
      uri <- getProp json "resource_server_base_uri" ;;
      ret (truthy uri)
    else ret false
  else ret false.

Definition _getToken (this : t) (contactId key : Val) (url : string) : Task Val :=
  let body := JObj [("grant_type", JStr "password");
                    ("username", JStr properties.incontactUser);
                    ("password", JStr properties.incontactPwd)] in
  catch
    (response <- fetch {| Async.url := url;
                          method := "POST";
                          Async.body := Some (JSON_stringify body);
                          headers := [("Content-Type", "application/json");
                                      ("Authorization", "basic " ++ this_key this)];
                          cache := "no-store";
                          mode := "cors" |} ;;
     json <- body_or_status response ;;
     present <- lift (token_present json) ;;
     if (present : bool) then
       log info ("contactId:" ++ toStr contactId ++ " _getToken - token received") ;;
       ret json
     else
       let msg := "Missing token and/or uri" in
       Throw (Error msg))
    (fun err =>
       log error ("contactId:" ++ toStr contactId ++ " _getToken - " ++ errStr err) ;;
       Throw err).

Definition files_url (uri fileName : Val) : string :=
  toStr uri ++ "services/" ++ properties.incontactVersion ++ "/files?fileName=" ++
  encodeURIComponent fileName.

(** [json && json.files] *)
Definition files_present (json : Val) : Eval bool :=
  if truthy json then
    files <- getProp json "files" ;;
    ret (truthy files)
  else ret false.

Definition _getFile (contactId token uri fileName : Val) : Task Val :=
  let url := files_url uri fileName in
  catch
    (response <- fetch {| Async.url := url;
                          method := "GET";
                          Async.body := None;
                          headers := [("Authorization", "bearer " ++ toStr token)];
                          cache := "no-store";
                          mode := "cors" |} ;;
     json <- body_or_status response ;;
     present <- lift (files_present json) ;;
     if (present : bool) then
       len <- lift (files <- getProp json "files" ;;
                    file <- getProp files "file" ;;
                    getProp file "length") ;;
       log info ("contactId:" ++ toStr contactId ++ " _getFile - length:" ++ toStr len) ;;
       lift (getProp json "files")
     else
       let msg := "Missing files object" in
       Throw (Error msg))
    (fun err =>
       log error ("contactId:" ++ toStr contactId ++ " _getFile - " ++ errStr err) ;;
       Throw err).

Definition _removeFile (contactId token uri fileName : Val) : Task Val :=
  let url := files_url uri fileName in
  catch
    (response <- fetch {| Async.url := url;
                          method := "DELETE";
                          Async.body := None;
                          headers := [("Authorization", "bearer " ++ toStr token)];
                          cache := "no-store";
                          mode := "cors" |} ;;
     if ok response then
       log info ("contactId:" ++ toStr contactId ++ " _removeFile - file deleted") ;;
       ret (JObj [("text", JStr (statusText response))])
     else
       Throw (Error (statusText response)))
    (fun err =>
       log error ("contactId:" ++ toStr contactId ++ " _removeFile - " ++ errStr err) ;;
       Throw err).

Definition get (this : t) (contactId fileName : Val) : Task Val :=
  catch
    (data <- _getToken this contactId (JStr (key this)) properties.incontactTokenUrl ;;
     access_token <- lift (getProp data "access_token") ;;
     uri <- lift (getProp data "resource_server_base_uri") ;;
     _getFile contactId access_token uri fileName)
    (fun err =>
       log error ("contactId:" ++ toStr contactId ++ " get - " ++ errStr err) ;;
       Throw err).

Definition remove (this : t) (contactId fileName : Val) : Task Val :=
  catch
    (data <- _getToken this contactId (JStr (key this)) properties.incontactTokenUrl ;;
     access_token <- lift (getProp data "access_token") ;;
     uri <- lift (getProp data "resource_server_base_uri") ;;
     _removeFile contactId access_token uri fileName)
    (fun err =>
       log error ("contactId:" ++ toStr contactId ++ " remove - " ++ errStr err) ;;
       Throw err).

End WithHost.
End Admin.

(* ===================================================================== *)
(** ** sentiment.js: class Sentiment *)
(* ===================================================================== *)

Module Sentiment.
Section WithHost.
Context {host : Host}.

(** The guard of [_stt]: [json.results && json.results.length > 0 &&
    json.results[0].alternatives && json.results[0].alternatives.length > 0
    && json.results[0].alternatives[0].transcript]. *)
Definition transcript_present (json : Val) : Eval bool :=
  results <- getProp json "results" ;;
  if truthy results then
    n <- getProp results "length" ;;
    if gt0 n then
      first <- getIndex results 0 ;;
      alternatives <- getProp first "alternatives" ;;
      if truthy alternatives then
        m <- getProp alternatives "length" ;;
        if gt0 m then
          alternative <- getIndex alternatives 0 ;;
          transcript <- getProp alternative "transcript" ;;
          ret (truthy transcript)
        else ret false
      else ret false
    else ret false
  else ret false.

(** [json.results[0].alternatives[0].transcript] *)
Definition first_transcript (json : Val) : Eval Val :=
  results <- getProp json "results" ;;
  first <- getIndex results 0 ;;
  alternatives <- getProp first "alternatives" ;;
  alternative <- getIndex alternatives 0 ;;
  getProp alternative "transcript".

Definition _stt (contactId msg : Val) : Task Val :=
  let audio := JObj [("content", msg)] in
  let config := JObj [("languageCode", JStr "en-US")] in
  let body := JObj [("audio", audio); ("config", config)] in
  catch
    (response <- fetch {| url := properties.gcpSttUrl;
                          method := "POST";
                          Async.body := Some (JSON_stringify body);
                          headers := [("Content-Type", "application/json; charset=utf-8")];
                          cache := "no-store";
                          mode := "cors" |} ;;
     json <- body_or_status response ;;
     present <- lift (transcript_present json) ;;
     if (present : bool) then
       transcript <- lift (first_transcript json) ;;
       len <- lift (getProp transcript "length") ;;
       log info ("contactId:" ++ toStr contactId ++ " _stt - transcript length:" ++ toStr len) ;;
       ret transcript
     else
       let msg := "Invalid/missing result value" in
       Throw (Error msg))
    (fun err =>
       log error ("contactId:" ++ toStr contactId ++ " _stt - " ++ errStr err) ;;
       Throw err).

Definition _analyze (contactId text : Val) : Task Val :=
  let document := JObj [("type", JStr "PLAIN_TEXT");
                        ("language", JStr "en");
                        ("content", text)] in
  let body := JObj [("document", document); ("encodingType", JStr "UTF8")] in
  catch
    (response <- fetch {| url := properties.gcpSntUrl;
                          method := "POST";
                          Async.body := Some (JSON_stringify body);
                          headers := [("Content-Type", "application/json; charset=utf-8")];
                          cache := "no-store";
                          mode := "cors" |} ;;
     json <- body_or_status response ;;
     documentSentiment <- lift (getProp json "documentSentiment") ;;
     if truthy documentSentiment then
       log info ("contactId:" ++ toStr contactId ++ " _analyze - sentiment analysis complete") ;;
       let result := JObj [("transcript", text); ("sentiment", documentSentiment)] in
       ret result
     else
       let msg := "Invalid/missing result value" in
       Throw (Error msg))
    (fun err =>
       log error ("contactId:" ++ toStr contactId ++ " _analyze - " ++ errStr err) ;;
       Throw err).

Definition process (contactId audio : Val) : Task Val :=
  catch
    (text <- _stt contactId audio ;;
     _analyze contactId text)
    (fun err =>
       log error ("contactId:" ++ toStr contactId ++ " process - " ++ errStr err) ;;
       Throw err).

End WithHost.
End Sentiment.

(* ===================================================================== *)
(** ** gcstorage.js: class GCStorage *)
(* ===================================================================== *)

Module GCStorage.

(** [this.bucket.file(name)]: a [File] handle of the bucket is its blob
    name; making one does no input or output, so the handle the source
    makes for [dirName] and never uses leaves no trace here. *)
Definition bucket_file (blobName : string) : string := blobName.

(** The promise settles with the first 'finish' or 'error' of the write
    stream the content is piped into. *)
Definition _save (contactId : Val) (name : string) (file : string) (content : Content)
  : Task unit :=
  Await (WriteStream file content)
        (fun ev =>
           match ev with
           | Some err =>
               log error ("contactId:" ++ toStr contactId ++ " _save - " ++ errStr err) ;;
               Throw err
           | None =>
               log info ("contactId:" ++ toStr contactId ++ " _save - " ++ name ++ " uploaded") ;;
               ret tt
           end).

Definition upload (contactId : Val) (audio transcript sentiment : Content) : Task unit :=
  let dirName := toStr contactId ++ "/" in
  let audioName := (dirName ++ toStr contactId) ++ ".wav" in
  let transName := (dirName ++ toStr contactId) ++ ".txt" in
  let sntName := (dirName ++ toStr contactId) ++ ".json" in
  let audioFile := bucket_file audioName in
  let transFile := bucket_file transName in
  let sntFile := bucket_file sntName in
  catch
    (_save contactId audioName audioFile audio ;;
     Fork (_save contactId transName transFile transcript) (ret tt) ;;
     Fork (_save contactId sntName sntFile sentiment) (ret tt))
    (fun err =>
       log error ("contactId:" ++ toStr contactId ++ " _upload - " ++ errStr err) ;;
       Throw err).

End GCStorage.

(* ===================================================================== *)
(** ** The webhook handler *)
(* ===================================================================== *)

Section Server.
Context {host : Host}.

Definition admin : Admin.t := Admin.constructor.

(** The callback of [app.post(properties.path, jsonParser, ...)]; [body]
    is [request.body]. *)
Definition handler (body : Val) : Task unit :=
  Do (Respond 200)
     (contactId <- lift (getProp body "contactId") ;;
      fileName <- lift (getProp body "fileName") ;;
      log info ("contactId:" ++ toStr contactId ++ " webserver - fileName:" ++ toStr fileName) ;;
      catch
        (json <- Admin.get admin contactId fileName ;;
         audio <- lift (getProp json "file") ;;
         json <- Sentiment.process contactId audio ;;
         bytes <- lift (Buffer_from_base64 audio) ;;
         transcript <- lift (getProp json "transcript") ;;
         sentiment <- lift (getProp json "sentiment") ;;
         GCStorage.upload contactId (Buffer bytes) (Plain transcript)
                          (Plain (JStr (JSON_stringify sentiment))) ;;
         Fork (drop (Admin.remove admin contactId fileName)) (ret tt))
        (fun err =>
           log error ("contactId:" ++ toStr contactId ++ " webserver - " ++ errStr err))).

End Server.

(* ===================================================================== *)
(** ** Vocabulary of the properties *)
(* ===================================================================== *)

(** [request.body] as [express.json()] leaves it: an object or an array. *)
Definition is_object (v : Val) : bool :=
  match v with
  | JObj _ | JArr _ => true
  | _ => false
  end.

(** [v.p], where [v] is known to be an object. *)
Definition field (v : Val) (p : string) : Val :=
  match getProp v p with
  | inr x => x
  | inl _ => JUndef
  end.

(** The body has a property of its own named [p]. *)
Definition has_property (v : Val) (p : string) : bool :=
  match v with
  | JObj props => match lookup p props with Some _ => true | None => false end
  | _ => false
  end.

(** The value found by following [results[0].alternatives[0].transcript],
    where every link is there: a link that is [undefined] or [null] has
    nothing below it. *)
Definition transcript_at_path (json : Val) : option Val :=
  match getProp json "results" with
  | inr results =>
      match getIndex results 0 with
      | inr first =>
          match getProp first "alternatives" with
          | inr alternatives =>
              match getIndex alternatives 0 with
              | inr alternative =>
                  match getProp alternative "transcript" with
                  | inr transcript => Some transcript
                  | inl _ => None
                  end
              | inl _ => None
              end
          | inl _ => None
          end
      | inl _ => None
      end
  | inl _ => None
  end.

(** The chain is broken when the path leads nowhere, or to [undefined],
    [null] or the empty string. *)
Definition chain_broken (json : Val) : Prop :=
  match transcript_at_path json with
  | None => True
  | Some transcript => transcript = JUndef \/ transcript = JNull \/ transcript = JStr ""
  end.

(** *** Promise chains and the event loop *)

(** The configuration of [p.then(k)], given the one of [p]. *)
Definition chain {A B : Type} (k : A -> Task B) (c : Config A) : Config B :=
  match main c with
  | Resolved a =>
      let r := run (k a) in
      mkConfig (outcome r) (background c ++ spawned r)%list (trace c ++ events r)%list
  | Rejected e => mkConfig (Rejected e) (background c) (trace c)
  | Waiting (pend op j) =>
      mkConfig (Waiting (pend op (fun x => then_ (j x) k))) (background c) (trace c)
  end.

(** The configuration of [p.catch(h)], given the one of [p]. *)
Definition recover {A : Type} (h : Err -> Task A) (c : Config A) : Config A :=
  match main c with
  | Resolved a => c
  | Rejected e =>
      let r := run (h e) in
      mkConfig (outcome r) (background c ++ spawned r)%list (trace c ++ events r)%list
  | Waiting (pend op j) =>
      mkConfig (Waiting (pend op (fun x => catch_ (j x) h))) (background c) (trace c)
  end.

(** [c], after [tr] has happened and with [bg] outstanding besides. *)
Definition frame {A : Type} (tr : list Event) (bg : list (Pend unit)) (c : Config A)
  : Config A :=
  mkConfig (main c) (bg ++ background c)%list (tr ++ trace c)%list.

Section Vocabulary.
Context {host : Host}.

(** The token request: everything in it comes from [properties] and from
    [this.key]. *)
Definition token_request (this : Admin.t) (url : string) : Request :=
  {| Async.url := url;
     method := "POST";
     body := Some (JSON_stringify
                     (JObj [("grant_type", JStr "password");
                            ("username", JStr properties.incontactUser);
                            ("password", JStr properties.incontactPwd)]));
     headers := [("Content-Type", "application/json");
                 ("Authorization", "basic " ++ Admin.key this)];
     cache := "no-store";
     mode := "cors" |}.

(** The callbacks of the handler's chain, one per [.then], and its
    [.catch]. *)
Definition after_upload (contactId fileName : Val) : unit -> Task unit :=
  fun _ => Fork (drop (Admin.remove admin contactId fileName)) (ret tt).

Definition after_process (contactId fileName audio : Val) : Val -> Task unit :=
  fun json =>
    bytes <- lift (Buffer_from_base64 audio) ;;
    transcript <- lift (getProp json "transcript") ;;
    sentiment <- lift (getProp json "sentiment") ;;
    then_ (GCStorage.upload contactId (Buffer bytes) (Plain transcript)
                            (Plain (JStr (JSON_stringify sentiment))))
          (after_upload contactId fileName).

Definition after_get (contactId fileName : Val) : Val -> Task unit :=
  fun json =>
    audio <- lift (getProp json "file") ;;
    then_ (Sentiment.process contactId audio) (after_process contactId fileName audio).

Definition report (contactId : Val) (err : Err) : Task unit :=
  log error ("contactId:" ++ toStr contactId ++ " webserver - " ++ errStr err).

(** What the handler does before the chain starts. *)
Definition preamble (contactId fileName : Val) : list Event :=
  [Performed (Respond 200);
   Performed (Log info ("contactId:" ++ toStr contactId ++ " webserver - fileName:" ++
                        toStr fileName))].

(** The line the handler's [.catch] logs. *)
Definition reported (contactId : Val) (err : Err) : Event :=
  Performed (Log error ("contactId:" ++ toStr contactId ++ " webserver - " ++ errStr err)).

End Vocabulary.

(** *** A sample job *)

(** A host for running the model on concrete inputs.  Its functions
    only mark what they are applied to: no property depends on what the
    real ones compute, and the theorems hold for every host. *)
Definition sample_host : Host :=
  {| btoa := fun s => "base64(" ++ s ++ ")";
     JSON_stringify := fun v => "json(" ++ toStr v ++ ")";
     encodeURIComponent := fun v => "uri(" ++ toStr v ++ ")";
     Buffer_from_base64 := fun v =>
       match v with
       | JStr s => inr (map byte_of_ascii (list_ascii_of_string s))
       | _ => inl (TypeError "The first argument must be one of type string, Buffer, ArrayBuffer, Array, or Array-like Object.")
       end;
     StringToNumber := fun _ => None |}.

Definition ok200 : Response := mkResponse 200 "OK".

Definition sample_body : Val :=
  JObj [("contactId", JStr "abc123"); ("fileName", JStr "/rec/abc123.wav")].

Definition sample_token : Val :=
  JObj [("access_token", JStr "t0k3n");
        ("resource_server_base_uri", JStr "https://api.incontact.example/")].

Definition sample_recording : Val :=
  JObj [("fileName", JStr "/rec/abc123.wav"); ("file", JStr "UklGRg==")].

Definition sample_files : Val := JObj [("files", sample_recording)].

Definition sample_recognized : Val :=
  JObj [("results",
         JArr [JObj [("alternatives",
                      JArr [JObj [("transcript", JStr "thank you for calling")]])]])].

Definition sample_score : Val := JObj [("magnitude", JNum 1); ("score", JNum 0)].

Definition sample_sentiment : Val := JObj [("documentSentiment", sample_score)].

(** The recognizer's answer of the failure scenario. *)
Definition no_results : Val := JObj [("results", JArr [])].

(** The completions of a job up to the recognizer's answer. *)
Definition until_recognizer (resp1 resp2 resp3 : Response) (token files recognized : Val)
  : list Choice :=
  map Main [RFetch (inr resp1); RJson (inr token);
            RFetch (inr resp2); RJson (inr files);
            RFetch (inr resp3); RJson (inr recognized)].

(** A schedule of the sample job in which every service answers well and
    the recording is deleted while the transcript and the sentiment are
    still being written; both writes then fail. *)
Definition delete_overtakes_writes : list Choice :=
  (until_recognizer ok200 ok200 ok200 sample_token sample_files sample_recognized ++
   [Main (RFetch (inr ok200)); Main (RJson (inr sample_sentiment));
    Main (RStream None);
    Background 2 (RFetch (inr ok200)); Background 2 (RJson (inr sample_token));
    Background 2 (RFetch (inr ok200));
    Background 0 (RStream (Some (Error "socket hang up")));
    Background 0 (RStream (Some (Error "socket hang up")))])%list.

(** A schedule of the sample job in which every service answers well
    and the audio is written, and the write of the transcript then fails
    while the token request of [remove] is outstanding; the token and
    the DELETE are answered afterwards, and the sentiment write
    finishes last. *)
Definition delete_follows_failed_write : list Choice :=
  (until_recognizer ok200 ok200 ok200 sample_token sample_files sample_recognized ++
   [Main (RFetch (inr ok200)); Main (RJson (inr sample_sentiment));
    Main (RStream None);
    Background 0 (RStream (Some (Error "socket hang up")));
    Background 1 (RFetch (inr ok200)); Background 1 (RJson (inr sample_token));
    Background 1 (RFetch (inr ok200));
    Background 0 (RStream None)])%list.

(** What happens after the first error line of a trace. *)
Fixpoint after_error (tr : list Event) : list Event :=
  match tr with
  | [] => []
  | Performed (Log error _) :: rest => rest
  | _ :: rest => after_error rest
  end.

Definition sample_blobs : list string :=
  ["abc123/abc123.wav"; "abc123/abc123.txt"; "abc123/abc123.json"].

(** Bodies on which the literal reading of a claim and the code part. *)
Definition empty_access_token : Val :=
  JObj [("access_token", JStr "");
        ("resource_server_base_uri", JStr "https://api.incontact.example/")].

Definition zero_sentiment : Val := JObj [("documentSentiment", JNum 0)].

Definition files_without_file : Val := JObj [("files", JObj [])].

(** *** Gates: what may only happen after something else *)

(** The completion of [op] with [x], as the environment supplies it. *)
Definition to_reply (op : Op) : answer op -> Reply :=
  match op return answer op -> Reply with
  | Fetch _ => RFetch
  | ReadJson _ => RJson
  | WriteStream _ _ => RStream
  end.

Section Gate.

(** The operations that need the gate open, and the completions that
    open it. *)
Variable gated : Op -> bool.
Variable opens : Op -> Reply -> bool.

(** On the tree: every path to a gated operation passes, in the same
    computation or in the one that called it, a completion that opens
    the gate. *)
Fixpoint safe {A : Type} (open : bool) (t : Task A) : Prop :=
  match t with
  | Ret _ => True
  | Throw _ => True
  | Do _ k => safe open k
  | Await op k =>
      (gated op = true -> open = true) /\
      forall x, safe (open || opens op (to_reply op x)) (k x)
  | Fork child k => safe open child /\ safe open k
  end.

Definition pend_safe {A : Type} (open : bool) (p : Pend A) : Prop :=
  match p with
  | pend op k => forall x, safe (open || opens op (to_reply op x)) (k x)
  end.

Definition status_safe {A : Type} (open : bool) (s : Status A) : Prop :=
  match s with
  | Waiting p => pend_safe open p
  | _ => True
  end.

(** On the trace: every gated operation is issued after a completion
    that opens the gate. *)
Fixpoint gate_ok (open : bool) (tr : list Event) : bool :=
  match tr with
  | [] => true
  | Issued op :: rest => (if gated op then open else true) && gate_ok open rest
  | Completed op r :: rest => gate_ok (open || opens op r) rest
  | _ :: rest => gate_ok open rest
  end.

Fixpoint gate_after (open : bool) (tr : list Event) : bool :=
  match tr with
  | [] => open
  | Completed op r :: rest => gate_after (open || opens op r) rest
  | _ :: rest => gate_after open rest
  end.

Definition gate_inv {A : Type} (c : Config A) : Prop :=
  gate_ok false (trace c) = true /\
  status_safe (gate_after false (trace c)) (main c) /\
  Forall (pend_safe (gate_after false (trace c))) (background c).

End Gate.

(** The promise of the computation itself never rejects. *)
Fixpoint never_throws {A : Type} (t : Task A) : Prop :=
  match t with
  | Ret _ => True
  | Throw _ => False
  | Do _ k => never_throws k
  | Await op k => forall x, never_throws (k x)
  | Fork _ k => never_throws k
  end.

Definition never_rejected {A : Type} (s : Status A) : Prop :=
  match s with
  | Resolved _ => True
  | Rejected _ => False
  | Waiting (pend op k) => forall x, never_throws (k x)
  end.

(** The gates of the pipeline. *)
Definition is_delete_op (op : Op) : bool :=
  match op with Fetch req => is_delete req | _ => false end.

Definition is_write_op (op : Op) : bool :=
  match op with WriteStream _ _ => true | _ => false end.

Definition is_request_to (address : string) (op : Op) : bool :=
  match op with
  | Fetch req => (method req =? "POST") && (url req =? address)
  | _ => false
  end.

Definition is_file_request (op : Op) : bool :=
  match op with
  | Fetch req => (method req =? "GET") || (method req =? "DELETE")
  | _ => false
  end.

Definition is_get (op : Op) : bool :=
  match op with Fetch req => method req =? "GET" | _ => false end.

(** The write stream of [blob] has emitted 'finish'. *)
Definition finishes (blob : string) (op : Op) (r : Reply) : bool :=
  match op, r with
  | WriteStream b _, RStream None => b =? blob
  | _, _ => false
  end.

(** A request accepted by [which] has been answered with a success
    status. *)
Definition answered_ok (which : Op -> bool) (op : Op) (r : Reply) : bool :=
  match r with
  | RFetch (inr resp) => which op && ok resp
  | _ => false
  end.

(** [dirName + contactId + '.wav'] *)
Definition audio_blob (contactId : Val) : string :=
  ((toStr contactId ++ "/") ++ toStr contactId) ++ ".wav".

Definition no_unhandled (tr : list Event) : bool :=
  forallb (fun ev => match ev with Unhandled _ => false | _ => true end) tr.

Definition reads_body (tr : list Event) : bool :=
  existsb (fun ev => match ev with Issued (ReadJson _) => true | _ => false end) tr.

Section Requests.
Context {host : Host}.

(** The request of [_getFile] ("GET") and of [_removeFile] ("DELETE"). *)
Definition file_request (verb : string) (token uri fileName : Val) : Request :=
  {| url := Admin.files_url uri fileName;
     method := verb;
     body := None;
     headers := [("Authorization", "bearer " ++ toStr token)];
     cache := "no-store";
     mode := "cors" |}.

Definition stt_request (msg : Val) : Request :=
  {| url := properties.gcpSttUrl;
     method := "POST";
     body := Some (JSON_stringify
                     (JObj [("audio", JObj [("content", msg)]);
                            ("config", JObj [("languageCode", JStr "en-US")])]));
     headers := [("Content-Type", "application/json; charset=utf-8")];
     cache := "no-store";
     mode := "cors" |}.

Definition snt_request (text : Val) : Request :=
  {| url := properties.gcpSntUrl;
     method := "POST";
     body := Some (JSON_stringify
                     (JObj [("document", JObj [("type", JStr "PLAIN_TEXT");
                                               ("language", JStr "en");
                                               ("content", text)]);
                            ("encodingType", JStr "UTF8")]));
     headers := [("Content-Type", "application/json; charset=utf-8")];
     cache := "no-store";
     mode := "cors" |}.

End Requests.

(** The completions of a job in which every stage succeeds, the two
    later writes finishing before [remove] gets its answers. *)
Definition whole_job (resp1 resp2 resp3 resp4 resp5 resp6 : Response)
           (token1 files recognized analysed token2 : Val) : list Choice :=
  (map Main [RFetch (inr resp1); RJson (inr token1);
             RFetch (inr resp2); RJson (inr files);
             RFetch (inr resp3); RJson (inr recognized);
             RFetch (inr resp4); RJson (inr analysed);
             RStream None] ++
   [Background 0 (RStream None); Background 0 (RStream None);
    Background 0 (RFetch (inr resp5)); Background 0 (RJson (inr token2));
    Background 0 (RFetch (inr resp6))])%list.

(** The completions of a job up to the answer of the sentiment service. *)
Definition until_analysis (resp1 resp2 resp3 resp4 : Response)
           (token files recognized analysed : Val) : list Reply :=
  [RFetch (inr resp1); RJson (inr token);
   RFetch (inr resp2); RJson (inr files);
   RFetch (inr resp3); RJson (inr recognized);
   RFetch (inr resp4); RJson (inr analysed)].

(** Walk a task tree: one case per answer and per test of the code. *)
Ltac walk :=
  repeat (cbn;
          match goal with
          | |- True => exact I
          | |- _ /\ _ => split
          | |- false = true -> _ => let H := fresh in intro H; discriminate H
          | |- _ -> true = true => intros _; reflexivity
          | |- ?a = ?a => reflexivity
          | |- forall _, _ => intro
          | |- context [lift ?e] => destruct e
          | |- context [if ?b then _ else _] => destruct b
          | |- context [match ?x with _ => _ end] => destruct x
          end).

(** The addresses of the two Google services, computed. *)
Ltac literal_urls :=
  let u := eval vm_compute in properties.gcpSntUrl in
  let v := eval vm_compute in properties.gcpSttUrl in
  change properties.gcpSntUrl with u in *;
  change properties.gcpSttUrl with v in *.

Ltac unfold_program :=
  unfold handler, Admin.get, Admin.remove, Admin._getToken, Admin._getFile,
    Admin._removeFile, Sentiment.process, Sentiment._stt, Sentiment._analyze,
    GCStorage.upload, GCStorage._save, body_or_status, fetch, json_of.

(** The configuration a promise is in after the completions [replies],
    handed to it one after the other. *)
Definition run_with {A : Type} (t : Task A) (replies : list Reply) : option (Config A) :=
  exec (start t) (map Main replies).

(** [dirName + contactId + '.txt'] and [dirName + contactId + '.json'] *)
Definition transcript_blob (contactId : Val) : string :=
  ((toStr contactId ++ "/") ++ toStr contactId) ++ ".txt".

Definition sentiment_blob (contactId : Val) : string :=
  ((toStr contactId ++ "/") ++ toStr contactId) ++ ".json".

(** A file answer whose [file] is a number, which [Buffer.from] refuses. *)
Definition numeric_recording : Val := JObj [("file", JNum 7)].
Definition numeric_files : Val := JObj [("files", numeric_recording)].

Definition not_found : Response := mkResponse 404 "Not Found".

(** The sample job, every service answering well. *)
Definition sample_whole_job (last : Response) : list Choice :=
  whole_job ok200 ok200 ok200 ok200 ok200 last
            sample_token sample_files sample_recognized sample_sentiment sample_token.

(* ===================================================================== *)
(** ** Proof tools *)
(* ===================================================================== *)

#[local] Arguments getProp : simpl nomatch.
#[local] Arguments getIndex : simpl nomatch.
#[local] Arguments truthy : simpl nomatch.
#[local] Arguments toStr : simpl nomatch.
#[local] Arguments errStr : simpl nomatch.
#[local] Arguments ok : simpl nomatch.
#[local] Arguments gt0 : simpl nomatch.
#[local] Arguments String.append : simpl never.

(** Rewrite with the facts at hand as far as the computation needs them. *)
Ltac crunch :=
  cbn;
  repeat (match goal with
          | H : ?l = _ |- context [?l] => rewrite H
          end; cbn).

(** Case analysis on the next completion the environment delivers in
    [H : exec c sched = Some c'], for at most three background
    computations; the first goal is the one of the empty schedule. *)
Ltac next_choice H :=
  match type of H with
  | exec _ ?s = Some _ =>
      let r := fresh "r" in
      let i := fresh "i" in
      destruct s as [| [r | i r] s];
      [ inversion H; subst; clear H
      | destruct r as [[? | ?] | [? | ?] | [? |]];
        cbn in H; try discriminate H
      | destruct i as [| [| [| [| i]]]];
        destruct r as [[? | ?] | [? | ?] | [? |]];
        cbn in H; try discriminate H ]
  end.

(* ===================================================================== *)
(** ** Laws of promise chains *)
(* ===================================================================== *)

Lemma append_assoc (a b c : string) : (a ++ b) ++ c = a ++ b ++ c.
Proof.
  induction a as [| ch a IH]; [reflexivity |].
  change ((String ch a ++ b) ++ c) with (String ch ((a ++ b) ++ c)).
  rewrite IH. reflexivity.
Qed.

(** [{contactId}/{contactId}{ext}] is what [dirName + contactId + ext]
    computes, with [dirName = contactId + '/']. *)
Lemma blob_name (c ext : string) : ((c ++ "/") ++ c) ++ ext = c ++ "/" ++ c ++ ext.
Proof. rewrite !append_assoc. reflexivity. Qed.

(** A value with a truthy property is itself truthy. *)
Lemma truthy_property (v x : Val) (p : string) :
  p <> "length" -> getProp v p = inr x -> truthy x = true -> truthy v = true.
Proof.
  intros Hp Hget Hx. unfold getProp in Hget.
  destruct v; try discriminate Hget; try reflexivity;
    try (inversion Hget; subst; discriminate Hx).
  apply String.eqb_neq in Hp. rewrite Hp in Hget.
  inversion Hget; subst; discriminate Hx.
Qed.

(** Once settled, a promise stays as it is, whatever completes later. *)
Lemma step_settled {A : Type} (c c' : Config A) (ch : Choice) :
  step c ch = Some c' ->
  (forall p, main c <> Waiting p) ->
  main c' = main c.
Proof.
  unfold step. destruct ch as [r | i r].
  - destruct (main c) as [a | e | p]; try discriminate.
    intros _ H. exfalso. exact (H p eq_refl).
  - destruct (nth_error (background c) i) as [p |]; try discriminate.
    destruct (deliver p r); try discriminate.
    intros H _. inversion H. reflexivity.
Qed.

Lemma exec_settled {A : Type} (sched : list Choice) :
  forall (c c' : Config A),
    exec c sched = Some c' ->
    (forall p, main c <> Waiting p) ->
    main c' = main c.
Proof.
  induction sched as [| ch rest IH]; intros c c' H Hs; cbn [exec] in H.
  - inversion H. reflexivity.
  - destruct (step c ch) as [c1 |] eqn:E; try discriminate.
    pose proof (step_settled _ _ _ E Hs) as H1.
    rewrite <- H1. apply IH; [exact H |].
    intros p. rewrite H1. apply Hs.
Qed.

Lemma exec_app {A : Type} (s1 s2 : list Choice) :
  forall c : Config A,
    exec c (s1 ++ s2) = match exec c s1 with Some c1 => exec c1 s2 | None => None end.
Proof.
  induction s1 as [| ch s1 IH]; intros c; simpl; [reflexivity |].
  destruct (step c ch); [apply IH | reflexivity].
Qed.

(** The synchronous part of [p.then(k)]. *)
Lemma run_then {A : Type} (t : Task A) :
  forall (B : Type) (k : A -> Task B),
    run (then_ t k)
    = match outcome (run t) with
      | Resolved a =>
          mkRan (events (run t) ++ events (run (k a)))%list
                (spawned (run t) ++ spawned (run (k a)))%list
                (outcome (run (k a)))
      | Rejected e => mkRan (events (run t)) (spawned (run t)) (Rejected e)
      | Waiting (pend op j) =>
          mkRan (events (run t)) (spawned (run t))
                (Waiting (pend op (fun x => then_ (j x) k)))
      end.
Proof.
  induction t as [A a | A e | A eff t IH | A op j IH | A child IHc t IH]; intros B k.
  - simpl. destruct (run (k a)). reflexivity.
  - reflexivity.
  - simpl. rewrite IH.
    destruct (outcome (run t)) as [a | e | [op j]]; reflexivity.
  - reflexivity.
  - simpl. rewrite IH.
    destruct (outcome (run t)) as [a | e | [op j]]; simpl; try reflexivity.
    rewrite <- !app_assoc. reflexivity.
Qed.

(** The synchronous part of [p.catch(h)]. *)
Lemma run_catch {A : Type} (t : Task A) :
  forall (h : Err -> Task A),
    run (catch_ t h)
    = match outcome (run t) with
      | Resolved a => run t
      | Rejected e =>
          mkRan (events (run t) ++ events (run (h e)))%list
                (spawned (run t) ++ spawned (run (h e)))%list
                (outcome (run (h e)))
      | Waiting (pend op j) =>
          mkRan (events (run t)) (spawned (run t))
                (Waiting (pend op (fun x => catch_ (j x) h)))
      end.
Proof.
  induction t as [A a | A e | A eff t IH | A op j IH | A child IHc t IH]; intros h.
  - reflexivity.
  - simpl. destruct (run (h e)). reflexivity.
  - simpl. rewrite IH.
    destruct (run t) as [ev sp [a | e | [op j]]]; reflexivity.
  - reflexivity.
  - simpl. rewrite IH.
    destruct (run t) as [ev sp [a | e | [op j]]]; simpl; try reflexivity.
    rewrite <- !app_assoc. reflexivity.
Qed.

Lemma start_then {A B : Type} (t : Task A) (k : A -> Task B) :
  start (then_ t k) = chain k (start t).
Proof.
  unfold start, chain. rewrite run_then. simpl.
  destruct (outcome (run t)) as [a | e | [op j]]; reflexivity.
Qed.

Lemma start_catch {A : Type} (t : Task A) (h : Err -> Task A) :
  start (catch_ t h) = recover h (start t).
Proof.
  unfold start, recover. rewrite run_catch. simpl.
  destruct (run t) as [ev sp [a | e | [op j]]]; reflexivity.
Qed.

(** One completion delivered to [p] is one delivered to [p.then(k)]. *)
Lemma step_then {A B : Type} (k : A -> Task B) (c c1 : Config A) (r : Reply) :
  step c (Main r) = Some c1 -> step (chain k c) (Main r) = Some (chain k c1).
Proof.
  unfold step, chain.
  destruct (main c) as [a | e | [op j]]; try discriminate.
  simpl.
  destruct op; destruct r; simpl; try discriminate;
    intros H; inversion H; subst; clear H; simpl;
    rewrite run_then;
    match goal with
    | |- context [outcome (run ?t)] => destruct (outcome (run t)) as [a | e | [op' j']]
    end;
    simpl; rewrite <- ?app_assoc; reflexivity.
Qed.

Lemma step_catch {A : Type} (h : Err -> Task A) (c c1 : Config A) (r : Reply) :
  step c (Main r) = Some c1 -> step (recover h c) (Main r) = Some (recover h c1).
Proof.
  unfold step, recover.
  destruct (main c) as [a | e | [op j]]; try discriminate.
  simpl.
  destruct op; destruct r; simpl; try discriminate;
    intros H; inversion H; subst; clear H; simpl;
    rewrite run_catch;
    match goal with
    | |- context [run ?t] => destruct (run t) as [ev sp [a | e | [op' j']]]
    end;
    simpl; rewrite <- ?app_assoc; reflexivity.
Qed.

Lemma step_frame {A : Type} (tr : list Event) (bg : list (Pend unit))
      (c : Config A) (r : Reply) :
  step (frame tr bg c) (Main r) = option_map (frame tr bg) (step c (Main r)).
Proof.
  unfold step, frame. simpl.
  destruct (main c) as [a | e | p]; try reflexivity.
  destruct (deliver p r); try reflexivity.
  simpl. rewrite <- !app_assoc. reflexivity.
Qed.

Lemma exec_then {A B : Type} (k : A -> Task B) (rs : list Reply) :
  forall (c c1 : Config A),
    exec c (map Main rs) = Some c1 ->
    exec (chain k c) (map Main rs) = Some (chain k c1).
Proof.
  induction rs as [| r rs IH]; intros c c1 H; cbn [map exec] in *.
  - inversion H. reflexivity.
  - destruct (step c (Main r)) as [c2 |] eqn:E; try discriminate.
    rewrite (step_then k _ _ _ E). apply IH. exact H.
Qed.

Lemma exec_catch {A : Type} (h : Err -> Task A) (rs : list Reply) :
  forall (c c1 : Config A),
    exec c (map Main rs) = Some c1 ->
    exec (recover h c) (map Main rs) = Some (recover h c1).
Proof.
  induction rs as [| r rs IH]; intros c c1 H; cbn [map exec] in *.
  - inversion H. reflexivity.
  - destruct (step c (Main r)) as [c2 |] eqn:E; try discriminate.
    rewrite (step_catch h _ _ _ E). apply IH. exact H.
Qed.

Lemma exec_frame {A : Type} (tr : list Event) (bg : list (Pend unit)) (rs : list Reply) :
  forall c : Config A,
    exec (frame tr bg c) (map Main rs) = option_map (frame tr bg) (exec c (map Main rs)).
Proof.
  induction rs as [| r rs IH]; intros c; cbn [map exec].
  - reflexivity.
  - rewrite step_frame.
    destruct (step c (Main r)) as [c1 |]; simpl; [apply IH | reflexivity].
Qed.

(** A rejected promise skips the callback of [.then]: nothing of [k]
    happens. *)
Lemma then_rejected {A B : Type} (t : Task A) (k : A -> Task B)
      (rs : list Reply) (c1 : Config A) (e : Err) :
  exec (start t) (map Main rs) = Some c1 ->
  main c1 = Rejected e ->
  exec (start (then_ t k)) (map Main rs)
  = Some (mkConfig (Rejected e) (background c1) (trace c1)).
Proof.
  intros H Hm. rewrite start_then, (exec_then k _ _ _ H).
  unfold chain. rewrite Hm. reflexivity.
Qed.

(** A resolved promise hands its value to the callback of [.then]. *)
Lemma then_resolved {A B : Type} (t : Task A) (k : A -> Task B)
      (rs1 rs2 : list Reply) (c1 : Config A) (a : A) (c2 : Config B) :
  exec (start t) (map Main rs1) = Some c1 ->
  main c1 = Resolved a ->
  exec (start (k a)) (map Main rs2) = Some c2 ->
  exec (start (then_ t k)) (map Main (rs1 ++ rs2))
  = Some (frame (trace c1) (background c1) c2).
Proof.
  intros H Hm H2. rewrite map_app, exec_app, start_then, (exec_then k _ _ _ H).
  unfold chain. rewrite Hm.
  change (mkConfig (outcome (run (k a))) (background c1 ++ spawned (run (k a)))%list
                   (trace c1 ++ events (run (k a)))%list)
    with (frame (trace c1) (background c1) (start (k a))).
  rewrite exec_frame, H2. reflexivity.
Qed.

(** A rejected promise hands its error to the callback of [.catch]. *)
Lemma catch_rejected {A : Type} (t : Task A) (h : Err -> Task A)
      (rs1 rs2 : list Reply) (c1 : Config A) (e : Err) (c2 : Config A) :
  exec (start t) (map Main rs1) = Some c1 ->
  main c1 = Rejected e ->
  exec (start (h e)) (map Main rs2) = Some c2 ->
  exec (start (catch_ t h)) (map Main (rs1 ++ rs2))
  = Some (frame (trace c1) (background c1) c2).
Proof.
  intros H Hm H2. rewrite map_app, exec_app, start_catch, (exec_catch h _ _ _ H).
  unfold recover. rewrite Hm.
  change (mkConfig (outcome (run (h e))) (background c1 ++ spawned (run (h e)))%list
                   (trace c1 ++ events (run (h e)))%list)
    with (frame (trace c1) (background c1) (start (h e))).
  rewrite exec_frame, H2. reflexivity.
Qed.

(** A resolved promise passes [.catch] untouched. *)
Lemma catch_resolved {A : Type} (t : Task A) (h : Err -> Task A)
      (rs : list Reply) (c1 : Config A) (a : A) :
  exec (start t) (map Main rs) = Some c1 ->
  main c1 = Resolved a ->
  exec (start (catch_ t h)) (map Main rs) = Some c1.
Proof.
  intros H Hm. rewrite start_catch, (exec_catch h _ _ _ H).
  unfold recover. rewrite Hm. reflexivity.
Qed.

Lemma do_first {A : Type} (eff : Effect) (t : Task A) (rs : list Reply) (c : Config A) :
  exec (start t) (map Main rs) = Some c ->
  exec (start (Do eff t)) (map Main rs) = Some (frame [Performed eff] [] c).
Proof.
  intros H.
  change (start (Do eff t)) with (frame [Performed eff] [] (start t)).
  rewrite exec_frame, H. reflexivity.
Qed.

(** The wrapper every class method ends with: [.catch(err => { log;
    throw err; })] around a chain whose first promise rejects. *)
Lemma logged_and_rethrown {A B : Type} (t : Task A) (k : A -> Task B)
      (line : Err -> string) (rs : list Reply) (c1 : Config A) (e : Err) :
  exec (start t) (map Main rs) = Some c1 ->
  main c1 = Rejected e ->
  exec (start (catch_ (then_ t k)
                      (fun err => then_ (log error (line err)) (fun _ => Throw err))))
       (map Main rs)
  = Some (mkConfig (Rejected e) (background c1)
                   (trace c1 ++ [Performed (Log error (line e))])).
Proof.
  intros H Hm.
  pose proof (then_rejected _ k _ _ _ H Hm) as S.
  pose proof (catch_rejected
                _ (fun err => then_ (log error (line err)) (fun _ => Throw err))
                rs [] _ e _ S eq_refl eq_refl) as C.
  rewrite app_nil_r in C. rewrite C.
  unfold frame. simpl. rewrite ?app_nil_r. reflexivity.
Qed.

(* ===================================================================== *)
(** ** The artifact store *)
(* ===================================================================== *)

Section Storage.

Variables (contactId : Val) (audio transcript sentiment : Content).

Let wav := toStr contactId ++ "/" ++ toStr contactId ++ ".wav".
Let txt := toStr contactId ++ "/" ++ toStr contactId ++ ".txt".
Let jsn := toStr contactId ++ "/" ++ toStr contactId ++ ".json".

(** C2.  The promise of [upload] is pending while the audio write is
    outstanding and nothing else has been started.  Only the completion
    of the audio write settles it: its 'finish' resolves it at once, with
    the transcript and the sentiment writes started but still
    outstanding, and whatever then happens to those two, the promise
    stays resolved; its 'error' rejects it with that error, and no other
    write is started.  On every schedule the promise is resolved only if
    the first thing that happened was the 'finish' of the audio write,
    and the transcript and the sentiment writes are opened only after
    it. *)
Theorem upload_awaits_only_first_write :
  (exists k, main (start (GCStorage.upload contactId audio transcript sentiment))
             = Waiting (pend (WriteStream wav audio) k)) /\
  background (start (GCStorage.upload contactId audio transcript sentiment)) = [] /\
  (exists c,
    step (start (GCStorage.upload contactId audio transcript sentiment))
         (Main (RStream None)) = Some c /\
    main c = Resolved tt /\
    map (@op_of unit) (background c) = [WriteStream txt transcript; WriteStream jsn sentiment] /\
    forall sched c', exec c sched = Some c' -> main c' = Resolved tt) /\
  trace (start (GCStorage.upload contactId audio transcript sentiment))
  = [Issued (WriteStream wav audio)] /\
  (exists c,
    step (start (GCStorage.upload contactId audio transcript sentiment))
         (Main (RStream None)) = Some c /\
    trace c
    = [Issued (WriteStream wav audio);
       Completed (WriteStream wav audio) (RStream None);
       Performed (Log info ("contactId:" ++ toStr contactId ++ " _save - " ++ wav ++ " uploaded"));
       Issued (WriteStream txt transcript);
       Issued (WriteStream jsn sentiment)]) /\
  (forall e, exists c,
    step (start (GCStorage.upload contactId audio transcript sentiment))
         (Main (RStream (Some e))) = Some c /\
    main c = Rejected e /\
    background c = [] /\
    trace c
    = [Issued (WriteStream wav audio);
       Completed (WriteStream wav audio) (RStream (Some e));
       Performed (Log error ("contactId:" ++ toStr contactId ++ " _save - " ++ errStr e));
       Performed (Log error ("contactId:" ++ toStr contactId ++ " _upload - " ++ errStr e))] /\
    forall sched c', exec c sched = Some c' -> main c' = Rejected e) /\
  (forall sched c,
    exec (start (GCStorage.upload contactId audio transcript sentiment)) sched = Some c ->
    main c = Resolved tt ->
    exists rest, sched = Main (RStream None) :: rest) /\
  (forall sched c,
    exec (start (GCStorage.upload contactId audio transcript sentiment)) sched = Some c ->
    main c <> Resolved tt ->
    writes (trace c) = [(wav, audio)]).
Proof.
  unfold wav, txt, jsn. rewrite <- !blob_name.
  split; [cbn; eexists; reflexivity |].
  split; [reflexivity |].
  split.
  { eexists. split; [cbn; reflexivity |].
    split; [reflexivity |].
    split; [reflexivity |].
    intros sched c' H.
    apply exec_settled in H; [exact H |].
    intros p; discriminate. }
  split; [reflexivity |].
  split; [eexists; split; [cbn; reflexivity | reflexivity] |].
  split.
  { intros e. eexists. split; [cbn; reflexivity |].
    split; [reflexivity |].
    split; [reflexivity |].
    split; [reflexivity |].
    intros sched c' H.
    apply exec_settled in H; [exact H |].
    intros p; discriminate. }
  split.
  - intros sched c H Hres.
    destruct sched as [| [r | i r] rest].
    + cbn in H. inversion H; subst c. discriminate Hres.
    + destruct r as [x | x | [e |]]; try (cbn in H; discriminate H).
      * cbn in H. apply exec_settled in H; [| intros p; discriminate].
        rewrite Hres in H. discriminate H.
      * eexists; reflexivity.
    + cbn in H. destruct i; discriminate H.
  - intros sched c H Hres.
    destruct sched as [| [r | i r] rest].
    + cbn in H. inversion H; subst c. reflexivity.
    + destruct r as [x | x | [e |]]; try (cbn in H; discriminate H).
      * cbn in H.
        destruct rest as [| ch rest]; [inversion H; subst c; reflexivity |].
        destruct ch as [r | [| i] r]; cbn in H; discriminate H.
      * cbn in H. apply exec_settled in H; [| intros p; discriminate].
        contradiction.
    + cbn in H. destruct i; discriminate H.
Qed.

(** C8.  [upload] opens write streams for the blobs
    [{contactId}/{contactId}.wav], [.txt] and [.json], in this order and
    with the audio, the transcript and the sentiment as contents: all
    three once the audio write has finished, and on no schedule a write
    to any other blob or a fourth write. *)
Theorem upload_blob_names :
  (exists c,
     exec (start (GCStorage.upload contactId audio transcript sentiment))
          [Main (RStream None)] = Some c /\
     writes (trace c) = [(wav, audio); (txt, transcript); (jsn, sentiment)]) /\
  (forall sched c,
     exec (start (GCStorage.upload contactId audio transcript sentiment)) sched = Some c ->
     writes (trace c) = [(wav, audio)] \/
     writes (trace c) = [(wav, audio); (txt, transcript); (jsn, sentiment)]).
Proof.
  unfold wav, txt, jsn. rewrite <- !blob_name.
  split; [eexists; split; reflexivity |].
  intros sched c H.
  next_choice H; [left; reflexivity | | ].
  - (* the audio write fails: nothing else is started *)
    next_choice H. left; reflexivity.
  - (* the audio write finishes *)
    do 3 (next_choice H; try (right; reflexivity)).
Qed.

End Storage.

(** The blobs of contact "abc123". *)
Example upload_abc123 (audio transcript sentiment : Content) :
  option_map (fun c => map fst (writes (trace c)))
             (exec (start (GCStorage.upload (JStr "abc123") audio transcript sentiment))
                   [Main (RStream None)])
  = Some ["abc123/abc123.wav"; "abc123/abc123.txt"; "abc123/abc123.json"].
Proof. reflexivity. Qed.

(* ===================================================================== *)
(** ** The token provider *)
(* ===================================================================== *)

Section Token.
Context {host : Host}.

(** C10.  [_getToken] does not look at its [key] argument: for any two
    keys it is the same computation, whose one outbound request carries
    [this.key] in the Authorization header, and [this.key] is what the
    constructor computed from the static configuration. *)
Theorem getToken_ignores_key (this : Admin.t) (contactId key1 key2 : Val) (url : string) :
  Admin._getToken this contactId key1 url = Admin._getToken this contactId key2 url /\
  requests (trace (start (Admin._getToken this contactId key1 url)))
    = [token_request this url] /\
  requests (trace (start (Admin._getToken this contactId key2 url)))
    = [token_request this url] /\
  Admin.key Admin.constructor
    = btoa (properties.incontactName ++ "@" ++ properties.incontactVendor ++ ":" ++
            properties.incontactKey).
Proof. repeat split. Qed.

End Token.

Section TokenContract.
Context {host : Host}.

Variables (this : Admin.t) (contactId key : Val) (url : string).

(** C4, as amended.  With a success status and a body whose
    [access_token] and [resource_server_base_uri] are both truthy (for a
    string: not empty), [_getToken] resolves with the body itself, which
    carries these two values; with a success status and a body that is
    falsy or in which one of the two is missing or falsy, it fails with
    "Missing token and/or uri"; with any other status it fails with the
    status. *)
Theorem getToken_contract (resp : Response) (json : Val) :
  (ok resp = true ->
   forall a u,
     getProp json "access_token" = inr a -> truthy a = true ->
     getProp json "resource_server_base_uri" = inr u -> truthy u = true ->
     resolves (Admin._getToken this contactId key url)
              [RFetch (inr resp); RJson (inr json)] json) /\
  (ok resp = true ->
   truthy json = false \/
   truthy (field json "access_token") = false \/
   truthy (field json "resource_server_base_uri") = false ->
   rejects (Admin._getToken this contactId key url)
           [RFetch (inr resp); RJson (inr json)] (Error "Missing token and/or uri")) /\
  (ok resp = false ->
   rejects (Admin._getToken this contactId key url)
           [RFetch (inr resp)]
           (Error ("Response status: " ++ string_of_Z (status resp)))).
Proof.
  unfold resolves, rejects, settles, Admin._getToken, body_or_status, Admin.token_present.
  repeat split.
  - intros Hok a u Ha Hta Hu Htu.
    assert (Hjson : truthy json = true)
      by (apply (truthy_property json a "access_token"); [discriminate | assumption | assumption]).
    crunch. reflexivity.
  - intros Hok Hmiss. crunch.
    destruct (truthy json) eqn:Hjson; [| reflexivity].
    unfold field in Hmiss.
    destruct (getProp json "access_token") as [e | a] eqn:Ha;
      [destruct json; discriminate |].
    destruct (getProp json "resource_server_base_uri") as [e | u] eqn:Hu;
      [destruct json; discriminate |].
    crunch.
    destruct (truthy a) eqn:Hta; [| reflexivity].
    crunch.
    destruct (truthy u) eqn:Htu; [| reflexivity].
    destruct Hmiss as [H | [H | H]]; discriminate H.
  - intros Hok. crunch. reflexivity.
Qed.

End TokenContract.

(* ===================================================================== *)
(** ** The recording client *)
(* ===================================================================== *)

Section Recording.
Context {host : Host}.

Variables (contactId token uri fileName : Val).

(** [_getFile] hands back [files] untouched when the log line can be
    written, that is when [files.file] is neither [undefined] nor
    [null]. *)
Lemma getFile_returns_files (resp : Response) (json files file : Val) :
  ok resp = true ->
  getProp json "files" = inr files ->
  truthy files = true ->
  getProp files "file" = inr file ->
  file <> JUndef -> file <> JNull ->
  resolves (Admin._getFile contactId token uri fileName)
           [RFetch (inr resp); RJson (inr json)] files.
Proof.
  intros Hok Hfiles Htruthy Hfile Hu Hn.
  assert (Hjson : truthy json = true)
    by (apply (truthy_property json files "files"); [discriminate | assumption | assumption]).
  assert (Hlen : exists len, getProp file "length" = inr len)
    by (destruct file; try contradiction; eexists; reflexivity).
  destruct Hlen as [len Hlen].
  unfold resolves, settles, Admin._getFile, body_or_status, Admin.files_present.
  crunch. reflexivity.
Qed.

(** Without a truthy [files] the fetch fails. *)
Lemma getFile_missing_files (resp : Response) (json : Val) :
  ok resp = true ->
  truthy json = false \/ truthy (field json "files") = false ->
  rejects (Admin._getFile contactId token uri fileName)
          [RFetch (inr resp); RJson (inr json)] (Error "Missing files object").
Proof.
  intros Hok Hmiss.
  unfold rejects, settles, Admin._getFile, body_or_status, Admin.files_present.
  crunch.
  destruct (truthy json) eqn:Hjson; [| reflexivity].
  destruct Hmiss as [Hmiss | Hmiss]; [discriminate |].
  unfold field in Hmiss.
  destruct (getProp json "files") as [e | files] eqn:Hfiles.
  - destruct json; discriminate.
  - crunch. reflexivity.
Qed.

(** C3, on the input where the code departs from it: the body has a
    [files] object, and the fetch fails with a TypeError raised by the
    log line, which reads [json.files.file.length]. *)
Theorem getFile_files_without_file :
  ok ok200 = true /\
  has_property files_without_file "files" = true /\
  is_object (field files_without_file "files") = true /\
  rejects (Admin._getFile contactId token uri fileName)
          [RFetch (inr ok200); RJson (inr files_without_file)]
          (TypeError "Cannot read property 'length' of undefined").
Proof. repeat split. Qed.

End Recording.

(* ===================================================================== *)
(** ** Transcription and sentiment *)
(* ===================================================================== *)

Section Transcription.
Context {host : Host}.

Variables (contactId msg : Val).

(** C5.  Where [results] is a list, its first element's [alternatives]
    is a list, and the first alternative's [transcript] is a non-empty
    string, [_stt] resolves with that string.  Where the chain is
    broken at any link, so that [results[0].alternatives[0].transcript]
    leads nowhere, or to [undefined], [null] or the empty string, [_stt]
    fails and returns nothing. *)
Theorem stt_contract (resp : Response) (json : Val) :
  ok resp = true ->
  (forall first rest alternative rest' s,
     getProp json "results" = inr (JArr (first :: rest)) ->
     getProp first "alternatives" = inr (JArr (alternative :: rest')) ->
     getProp alternative "transcript" = inr (JStr s) ->
     s <> "" ->
     resolves (Sentiment._stt contactId msg)
              [RFetch (inr resp); RJson (inr json)] (JStr s)) /\
  (chain_broken json ->
   exists e, rejects (Sentiment._stt contactId msg)
                     [RFetch (inr resp); RJson (inr json)] e).
Proof.
  intros Hok.
  unfold resolves, rejects, settles, Sentiment._stt, body_or_status,
    Sentiment.transcript_present, Sentiment.first_transcript.
  split.
  - intros first rest alternative rest' s Hres Halt Htr Hs.
    apply String.eqb_neq in Hs.
    crunch. reflexivity.
  - unfold chain_broken, transcript_at_path. intros Hbroken. crunch.
    destruct (getProp json "results") as [e | results]; [eexists; reflexivity |].
    cbn. destruct (truthy results); [| eexists; reflexivity].
    destruct (getProp results "length") as [e | n]; [eexists; reflexivity |].
    cbn. destruct (gt0 n); [| eexists; reflexivity].
    destruct (getIndex results 0) as [e | first]; [eexists; reflexivity |].
    cbn. destruct (getProp first "alternatives") as [e | alternatives];
      [eexists; reflexivity |].
    cbn. destruct (truthy alternatives); [| eexists; reflexivity].
    destruct (getProp alternatives "length") as [e | m]; [eexists; reflexivity |].
    cbn. destruct (gt0 m); [| eexists; reflexivity].
    destruct (getIndex alternatives 0) as [e | alternative]; [eexists; reflexivity |].
    cbn. destruct (getProp alternative "transcript") as [e | transcript];
      [eexists; reflexivity |].
    cbn. destruct Hbroken as [H | [H | H]]; subst transcript; eexists; reflexivity.
Qed.

End Transcription.

Section Analysis.
Context {host : Host}.

Variables (contactId text : Val).

(** C6, as amended.  With a success status and a truthy
    [documentSentiment] in the body (any object is truthy), [_analyze]
    resolves with the input text itself as [transcript], paired with that
    [documentSentiment]; where [documentSentiment] is missing or falsy
    ([null], [0], the empty string, [false]), it fails. *)
Theorem analyze_contract (resp : Response) (json : Val) :
  ok resp = true ->
  (forall d,
     getProp json "documentSentiment" = inr d -> truthy d = true ->
     resolves (Sentiment._analyze contactId text)
              [RFetch (inr resp); RJson (inr json)]
              (JObj [("transcript", text); ("sentiment", d)]) /\
     getProp (JObj [("transcript", text); ("sentiment", d)]) "transcript" = inr text) /\
  (truthy (field json "documentSentiment") = false ->
   exists e, rejects (Sentiment._analyze contactId text)
                     [RFetch (inr resp); RJson (inr json)] e).
Proof.
  intros Hok.
  unfold resolves, rejects, settles, Sentiment._analyze, body_or_status.
  split.
  - intros d Hd Htd. split; [crunch; reflexivity | reflexivity].
  - unfold field. intros Hmiss. crunch.
    destruct (getProp json "documentSentiment") as [e | d]; [eexists; reflexivity |].
    crunch. eexists; reflexivity.
Qed.

End Analysis.

(* ===================================================================== *)
(** ** The inbound endpoint *)
(* ===================================================================== *)

Section JobAsRead.
Context {host : Host}.

Variables (body contactId fileName : Val).
Hypothesis Hc : getProp body "contactId" = inr contactId.
Hypothesis Hf : getProp body "fileName" = inr fileName.



End JobAsRead.

Section Webhook.
Context {host : Host}.


End Webhook.

(* ===================================================================== *)
(** ** The fulfilment pipeline *)
(* ===================================================================== *)

Section Pipeline.
Context {host : Host}.

Variables (body contactId fileName : Val).
Hypothesis Hc : getProp body "contactId" = inr contactId.
Hypothesis Hf : getProp body "fileName" = inr fileName.

(** Inside [get], [process] and [remove]: when the first call fails, the
    second is not made, and the method rejects with the same error. *)
Lemma token_failure_stops_get (rs : list Reply) (c1 : Config Val) (e : Err) :
  exec (start (Admin._getToken admin contactId (JStr (Admin.key admin))
                               properties.incontactTokenUrl))
       (map Main rs) = Some c1 ->
  main c1 = Rejected e ->
  exec (start (Admin.get admin contactId fileName)) (map Main rs)
  = Some (mkConfig (Rejected e) (background c1)
                   (trace c1 ++ [Performed (Log error ("contactId:" ++ toStr contactId ++
                                                       " get - " ++ errStr e))])).
Proof.
  intros H Hm.
  exact (logged_and_rethrown
           _ _ (fun err => "contactId:" ++ toStr contactId ++ " get - " ++ errStr err)
           _ _ _ H Hm).
Qed.

Lemma token_failure_stops_remove (rs : list Reply) (c1 : Config Val) (e : Err) :
  exec (start (Admin._getToken admin contactId (JStr (Admin.key admin))
                               properties.incontactTokenUrl))
       (map Main rs) = Some c1 ->
  main c1 = Rejected e ->
  exec (start (Admin.remove admin contactId fileName)) (map Main rs)
  = Some (mkConfig (Rejected e) (background c1)
                   (trace c1 ++ [Performed (Log error ("contactId:" ++ toStr contactId ++
                                                       " remove - " ++ errStr e))])).
Proof.
  intros H Hm.
  exact (logged_and_rethrown
           _ _ (fun err => "contactId:" ++ toStr contactId ++ " remove - " ++ errStr err)
           _ _ _ H Hm).
Qed.

Lemma stt_failure_stops_process (audio : Val) (rs : list Reply) (c1 : Config Val) (e : Err) :
  exec (start (Sentiment._stt contactId audio)) (map Main rs) = Some c1 ->
  main c1 = Rejected e ->
  exec (start (Sentiment.process contactId audio)) (map Main rs)
  = Some (mkConfig (Rejected e) (background c1)
                   (trace c1 ++ [Performed (Log error ("contactId:" ++ toStr contactId ++
                                                       " process - " ++ errStr e))])).
Proof.
  intros H Hm.
  exact (logged_and_rethrown
           _ _ (fun err => "contactId:" ++ toStr contactId ++ " process - " ++ errStr err)
           _ _ _ H Hm).
Qed.

(** The handler is one chain:
    [get(..).then(after_get).catch(report)], with the later stages
    nested in the callbacks. *)
Lemma handler_chain :
  handler body
  = Do (Respond 200)
       (Do (Log info ("contactId:" ++ toStr contactId ++ " webserver - fileName:" ++
                      toStr fileName))
           (catch_ (then_ (Admin.get admin contactId fileName)
                          (after_get contactId fileName))
                   (report contactId))).
Proof. unfold handler. rewrite Hc, Hf. reflexivity. Qed.

(** The chain, given what its inner part does. *)
Lemma handler_reports (rs : list Reply) (c1 : Config unit) (e : Err) :
  exec (start (then_ (Admin.get admin contactId fileName) (after_get contactId fileName)))
       (map Main rs) = Some c1 ->
  main c1 = Rejected e ->
  exec (start (handler body)) (map Main rs)
  = Some (mkConfig (Resolved tt) (background c1)
                   (preamble contactId fileName ++ trace c1 ++ [reported contactId e])).
Proof.
  intros H Hm. rewrite handler_chain.
  pose proof (catch_rejected _ (report contactId) rs [] _ e _ H Hm eq_refl) as C.
  rewrite app_nil_r in C.
  rewrite (do_first _ _ _ _ (do_first _ _ _ _ C)).
  unfold frame. simpl. rewrite ?app_nil_r. reflexivity.
Qed.

(** The fetch stage fails: the job ends with what the fetch did and the
    handler's report; no later stage has run. *)
Lemma get_failure_ends_job (rs : list Reply) (c1 : Config Val) (e : Err) :
  exec (start (Admin.get admin contactId fileName)) (map Main rs) = Some c1 ->
  main c1 = Rejected e ->
  exec (start (handler body)) (map Main rs)
  = Some (mkConfig (Resolved tt) (background c1)
                   (preamble contactId fileName ++ trace c1 ++ [reported contactId e])).
Proof.
  intros H Hm.
  pose proof (then_rejected _ (after_get contactId fileName) _ _ _ H Hm) as S.
  rewrite (handler_reports _ _ e S eq_refl). reflexivity.
Qed.

(** The transcription and analysis stage fails. *)
Lemma process_failure_ends_job
      (rs1 rs2 : list Reply) (c1 c2 : Config Val) (files audio : Val) (e : Err) :
  exec (start (Admin.get admin contactId fileName)) (map Main rs1) = Some c1 ->
  main c1 = Resolved files ->
  getProp files "file" = inr audio ->
  exec (start (Sentiment.process contactId audio)) (map Main rs2) = Some c2 ->
  main c2 = Rejected e ->
  exec (start (handler body)) (map Main (rs1 ++ rs2))
  = Some (mkConfig (Resolved tt) (background c1 ++ background c2)%list
                   (preamble contactId fileName ++ trace c1 ++ trace c2 ++
                    [reported contactId e])).
Proof.
  intros H1 Hm1 Hfile H2 Hm2.
  pose proof (then_rejected _ (after_process contactId fileName audio) _ _ _ H2 Hm2) as S2.
  assert (S1 : exec (start (after_get contactId fileName files)) (map Main rs2)
               = Some (mkConfig (Rejected e) (background c2) (trace c2)))
    by (unfold after_get; rewrite Hfile; exact S2).
  pose proof (then_resolved _ (after_get contactId fileName) _ _ _ _ _ H1 Hm1 S1) as S.
  rewrite (handler_reports _ _ e S eq_refl).
  unfold frame. simpl. rewrite <- ?app_assoc. reflexivity.
Qed.

(** What the handler does between the analysis and the upload. *)
Lemma after_process_uploads (audio json transcript sentiment : Val) (bytes : list Byte.byte) :
  Buffer_from_base64 audio = inr bytes ->
  getProp json "transcript" = inr transcript ->
  getProp json "sentiment" = inr sentiment ->
  after_process contactId fileName audio json
  = then_ (GCStorage.upload contactId (Buffer bytes) (Plain transcript)
                            (Plain (JStr (JSON_stringify sentiment))))
          (after_upload contactId fileName).
Proof.
  intros Hb Ht Hs. unfold after_process. rewrite Hb, Ht, Hs. reflexivity.
Qed.

(** The upload fails. *)
Lemma upload_failure_ends_job
      (rs1 rs2 rs3 : list Reply) (c1 c2 : Config Val) (c3 : Config unit)
      (files audio json transcript sentiment : Val) (bytes : list Byte.byte) (e : Err) :
  exec (start (Admin.get admin contactId fileName)) (map Main rs1) = Some c1 ->
  main c1 = Resolved files ->
  getProp files "file" = inr audio ->
  exec (start (Sentiment.process contactId audio)) (map Main rs2) = Some c2 ->
  main c2 = Resolved json ->
  Buffer_from_base64 audio = inr bytes ->
  getProp json "transcript" = inr transcript ->
  getProp json "sentiment" = inr sentiment ->
  exec (start (GCStorage.upload contactId (Buffer bytes) (Plain transcript)
                                (Plain (JStr (JSON_stringify sentiment)))))
       (map Main rs3) = Some c3 ->
  main c3 = Rejected e ->
  exec (start (handler body)) (map Main (rs1 ++ rs2 ++ rs3))
  = Some (mkConfig (Resolved tt) (background c1 ++ background c2 ++ background c3)%list
                   (preamble contactId fileName ++ trace c1 ++ trace c2 ++ trace c3 ++
                    [reported contactId e])).
Proof.
  intros H1 Hm1 Hfile H2 Hm2 Hb Ht Hs H3 Hm3.
  pose proof (then_rejected _ (after_upload contactId fileName) _ _ _ H3 Hm3) as S3.
  rewrite <- (after_process_uploads audio json transcript sentiment bytes Hb Ht Hs) in S3.
  pose proof (then_resolved _ (after_process contactId fileName audio) _ _ _ _ _ H2 Hm2 S3)
    as S2.
  assert (S1 : exec (start (after_get contactId fileName files)) (map Main (rs2 ++ rs3))
               = Some (frame (trace c2) (background c2)
                             (mkConfig (Rejected e) (background c3) (trace c3))))
    by (unfold after_get; rewrite Hfile; exact S2).
  pose proof (then_resolved _ (after_get contactId fileName) _ _ _ _ _ H1 Hm1 S1) as S.
  rewrite (handler_reports _ _ e S eq_refl).
  unfold frame. simpl. rewrite <- ?app_assoc. reflexivity.
Qed.

(** The upload's promise resolves: the handler calls [remove] then and
    there, without a further condition. *)
Lemma resolved_upload_starts_remove
      (rs1 rs2 rs3 : list Reply) (c1 c2 : Config Val) (c3 : Config unit)
      (files audio json transcript sentiment : Val) (bytes : list Byte.byte) :
  exec (start (Admin.get admin contactId fileName)) (map Main rs1) = Some c1 ->
  main c1 = Resolved files ->
  getProp files "file" = inr audio ->
  exec (start (Sentiment.process contactId audio)) (map Main rs2) = Some c2 ->
  main c2 = Resolved json ->
  Buffer_from_base64 audio = inr bytes ->
  getProp json "transcript" = inr transcript ->
  getProp json "sentiment" = inr sentiment ->
  exec (start (GCStorage.upload contactId (Buffer bytes) (Plain transcript)
                                (Plain (JStr (JSON_stringify sentiment)))))
       (map Main rs3) = Some c3 ->
  main c3 = Resolved tt ->
  exec (start (handler body)) (map Main (rs1 ++ rs2 ++ rs3))
  = Some (frame (preamble contactId fileName ++ trace c1 ++ trace c2 ++ trace c3)%list
                (background c1 ++ background c2 ++ background c3)%list
                (start (after_upload contactId fileName tt))).
Proof.
  intros H1 Hm1 Hfile H2 Hm2 Hb Ht Hs H3 Hm3.
  pose proof (then_resolved _ (after_upload contactId fileName) rs3 [] _ tt _
                            H3 Hm3 eq_refl) as S3.
  rewrite app_nil_r in S3.
  rewrite <- (after_process_uploads audio json transcript sentiment bytes Hb Ht Hs) in S3.
  pose proof (then_resolved _ (after_process contactId fileName audio) _ _ _ _ _ H2 Hm2 S3)
    as S2.
  assert (S1 : exec (start (after_get contactId fileName files)) (map Main (rs2 ++ rs3))
               = Some (frame (trace c2) (background c2)
                             (frame (trace c3) (background c3)
                                    (start (after_upload contactId fileName tt)))))
    by (unfold after_get; rewrite Hfile; exact S2).
  pose proof (then_resolved _ (after_get contactId fileName) _ _ _ _ _ H1 Hm1 S1) as S.
  rewrite handler_chain.
  pose proof (catch_resolved _ (report contactId) _ _ tt S eq_refl) as C.
  rewrite (do_first _ _ _ _ (do_first _ _ _ _ C)).
  unfold frame. simpl. rewrite <- ?app_assoc, ?app_nil_r. reflexivity.
Qed.

(** For every job whose stages succeed: when the audio write finishes,
    the handler's chain is through, and the token request of [remove] is
    out while the transcript and the sentiment writes are outstanding. *)
Lemma remove_starts_with_writes_outstanding
      (rs1 rs2 : list Reply) (c1 c2 : Config Val)
      (files audio json transcript sentiment : Val) (bytes : list Byte.byte) :
  exec (start (Admin.get admin contactId fileName)) (map Main rs1) = Some c1 ->
  main c1 = Resolved files ->
  getProp files "file" = inr audio ->
  exec (start (Sentiment.process contactId audio)) (map Main rs2) = Some c2 ->
  main c2 = Resolved json ->
  Buffer_from_base64 audio = inr bytes ->
  getProp json "transcript" = inr transcript ->
  getProp json "sentiment" = inr sentiment ->
  exists c,
    exec (start (handler body)) (map Main (rs1 ++ rs2 ++ [RStream None])) = Some c /\
    main c = Resolved tt /\
    map (@op_of unit) (background c)
    = (map (@op_of unit) (background c1) ++ map (@op_of unit) (background c2) ++
       [WriteStream (toStr contactId ++ "/" ++ toStr contactId ++ ".txt") (Plain transcript);
        WriteStream (toStr contactId ++ "/" ++ toStr contactId ++ ".json")
                    (Plain (JStr (JSON_stringify sentiment)));
        Fetch (token_request admin properties.incontactTokenUrl)])%list.
Proof.
  intros H1 Hm1 Hfile H2 Hm2 Hb Ht Hs.
  eexists. split.
  - eapply (resolved_upload_starts_remove rs1 rs2 [RStream None]); eauto; reflexivity.
  - split; [reflexivity |].
    rewrite <- !blob_name. unfold frame. cbn.
    rewrite !map_app, <- ?app_assoc. reflexivity.
Qed.

(** The scenario of C7: the token and the recording arrive as they
    should, and the recognizer answers [{results: []}]. *)
Lemma empty_results_stop_the_job
      (resp1 resp2 resp3 : Response) (token a u files recording audio len : Val) :
  ok resp1 = true ->
  getProp token "access_token" = inr a -> truthy a = true ->
  getProp token "resource_server_base_uri" = inr u -> truthy u = true ->
  ok resp2 = true ->
  getProp files "files" = inr recording -> truthy recording = true ->
  getProp recording "file" = inr audio ->
  getProp audio "length" = inr len ->
  ok resp3 = true ->
  exists c,
    exec (start (handler body))
         (until_recognizer resp1 resp2 resp3 token files no_results) = Some c /\
    logged error (trace c)
    = ["contactId:" ++ toStr contactId ++ " _stt - Error: Invalid/missing result value";
       "contactId:" ++ toStr contactId ++ " process - Error: Invalid/missing result value";
       "contactId:" ++ toStr contactId ++ " webserver - Error: Invalid/missing result value"] /\
    writes (trace c) = [] /\
    filter is_delete (requests (trace c)) = [] /\
    main c = Resolved tt /\
    background c = [] /\
    forall ch, step c ch = None.
Proof.
  intros Hok1 Ha Hta Hu Htu Hok2 Hrec Htrec Haudio Hlen Hok3.
  assert (Htoken : truthy token = true)
    by (apply (truthy_property token a "access_token"); [discriminate | assumption | assumption]).
  assert (Hfiles : truthy files = true)
    by (apply (truthy_property files recording "files"); [discriminate | assumption | assumption]).
  unfold until_recognizer, no_results, handler, Admin.get, Admin._getToken, Admin._getFile,
    Sentiment.process, Sentiment._stt, body_or_status, Admin.token_present,
    Admin.files_present, Sentiment.transcript_present.
  eexists. split; [crunch; reflexivity |].
  repeat split.
  intros [r | [| i] r]; reflexivity.
Qed.

(** When the recognizer answers [{results: []}], the job logs the
    transcription error under its contactId, opens no write stream, sends
    no DELETE, and is over.  More generally, when the promise of the
    fetch stage, of the transcription and analysis stage or of the upload
    rejects, the job ends with what the stages so far have done and the
    handler's report of the error: nothing of a later stage happens.  The
    same holds inside the stages: a failed token request stops [get]
    before the file request and [remove] before the DELETE, and a failed
    transcription stops [process] before the analysis. *)
Theorem failed_stage_ends_job :
  (forall (resp1 resp2 resp3 : Response) (token a u files recording audio len : Val),
     ok resp1 = true ->
     getProp token "access_token" = inr a -> truthy a = true ->
     getProp token "resource_server_base_uri" = inr u -> truthy u = true ->
     ok resp2 = true ->
     getProp files "files" = inr recording -> truthy recording = true ->
     getProp recording "file" = inr audio ->
     getProp audio "length" = inr len ->
     ok resp3 = true ->
     exists c,
       exec (start (handler body))
            (until_recognizer resp1 resp2 resp3 token files no_results) = Some c /\
       logged error (trace c)
       = ["contactId:" ++ toStr contactId ++ " _stt - Error: Invalid/missing result value";
          "contactId:" ++ toStr contactId ++ " process - Error: Invalid/missing result value";
          "contactId:" ++ toStr contactId ++ " webserver - Error: Invalid/missing result value"] /\
       writes (trace c) = [] /\
       filter is_delete (requests (trace c)) = [] /\
       main c = Resolved tt /\
       background c = [] /\
       forall ch, step c ch = None) /\
  (forall (rs : list Reply) (c1 : Config Val) (e : Err),
     exec (start (Admin.get admin contactId fileName)) (map Main rs) = Some c1 ->
     main c1 = Rejected e ->
     exec (start (handler body)) (map Main rs)
     = Some (mkConfig (Resolved tt) (background c1)
                      (preamble contactId fileName ++ trace c1 ++ [reported contactId e]))) /\
  (forall (rs1 rs2 : list Reply) (c1 c2 : Config Val) (files audio : Val) (e : Err),
     exec (start (Admin.get admin contactId fileName)) (map Main rs1) = Some c1 ->
     main c1 = Resolved files ->
     getProp files "file" = inr audio ->
     exec (start (Sentiment.process contactId audio)) (map Main rs2) = Some c2 ->
     main c2 = Rejected e ->
     exec (start (handler body)) (map Main (rs1 ++ rs2))
     = Some (mkConfig (Resolved tt) (background c1 ++ background c2)%list
                      (preamble contactId fileName ++ trace c1 ++ trace c2 ++
                       [reported contactId e]))) /\
  (forall (rs1 rs2 rs3 : list Reply) (c1 c2 : Config Val) (c3 : Config unit)
          (files audio json transcript sentiment : Val) (bytes : list Byte.byte) (e : Err),
     exec (start (Admin.get admin contactId fileName)) (map Main rs1) = Some c1 ->
     main c1 = Resolved files ->
     getProp files "file" = inr audio ->
     exec (start (Sentiment.process contactId audio)) (map Main rs2) = Some c2 ->
     main c2 = Resolved json ->
     Buffer_from_base64 audio = inr bytes ->
     getProp json "transcript" = inr transcript ->
     getProp json "sentiment" = inr sentiment ->
     exec (start (GCStorage.upload contactId (Buffer bytes) (Plain transcript)
                                   (Plain (JStr (JSON_stringify sentiment)))))
          (map Main rs3) = Some c3 ->
     main c3 = Rejected e ->
     exec (start (handler body)) (map Main (rs1 ++ rs2 ++ rs3))
     = Some (mkConfig (Resolved tt) (background c1 ++ background c2 ++ background c3)%list
                      (preamble contactId fileName ++ trace c1 ++ trace c2 ++ trace c3 ++
                       [reported contactId e]))) /\
  (forall (rs : list Reply) (c1 : Config Val) (e : Err),
     exec (start (Admin._getToken admin contactId (JStr (Admin.key admin))
                                  properties.incontactTokenUrl))
          (map Main rs) = Some c1 ->
     main c1 = Rejected e ->
     exec (start (Admin.get admin contactId fileName)) (map Main rs)
     = Some (mkConfig (Rejected e) (background c1)
                      (trace c1 ++ [Performed (Log error ("contactId:" ++ toStr contactId ++
                                                          " get - " ++ errStr e))])) /\
     exec (start (Admin.remove admin contactId fileName)) (map Main rs)
     = Some (mkConfig (Rejected e) (background c1)
                      (trace c1 ++ [Performed (Log error ("contactId:" ++ toStr contactId ++
                                                          " remove - " ++ errStr e))]))) /\
  (forall (audio : Val) (rs : list Reply) (c1 : Config Val) (e : Err),
     exec (start (Sentiment._stt contactId audio)) (map Main rs) = Some c1 ->
     main c1 = Rejected e ->
     exec (start (Sentiment.process contactId audio)) (map Main rs)
     = Some (mkConfig (Rejected e) (background c1)
                      (trace c1 ++ [Performed (Log error ("contactId:" ++ toStr contactId ++
                                                          " process - " ++ errStr e))]))).
Proof.
  split; [exact empty_results_stop_the_job |].
  split; [exact get_failure_ends_job |].
  split; [exact process_failure_ends_job |].
  split; [exact upload_failure_ends_job |].
  split.
  - intros rs c1 e H Hm. split.
    + exact (token_failure_stops_get rs c1 e H Hm).
    + exact (token_failure_stops_remove rs c1 e H Hm).
  - exact stt_failure_stops_process.
Qed.

End Pipeline.

Section PersistFailure.
Context {host : Host}.

(** C7, on a schedule where the code departs from it.  Every service
    answers the sample job well and the audio is written.  The write of
    the transcript then fails: [_save] logs the error and rejects, but
    [upload] has dropped that promise, so the rejection is left
    unhandled, the handler's [.catch] logs nothing, and the job goes on
    to its last stage.  After the error the DELETE request is sent and
    answered: the recording is deleted although the persist stage threw. *)
Theorem failed_write_does_not_end_job (bytes : list Byte.byte) :
  Buffer_from_base64 (JStr "UklGRg==") = inr bytes ->
  exists c,
    exec (start (handler sample_body)) delete_follows_failed_write = Some c /\
    logged error (trace c) = ["contactId:abc123 _save - Error: socket hang up"] /\
    In (Unhandled (Error "socket hang up")) (trace c) /\
    map method (requests (after_error (trace c))) = ["DELETE"] /\
    In "contactId:abc123 _removeFile - file deleted" (logged info (after_error (trace c))) /\
    map fst (writes (trace c)) = sample_blobs /\
    main c = Resolved tt /\
    background c = [].
Proof.
  intros Hbytes.
  unfold delete_follows_failed_write, until_recognizer, sample_body, handler, Admin.get,
    Admin.remove, Admin._getToken, Admin._getFile, Admin._removeFile, Sentiment.process,
    Sentiment._stt, Sentiment._analyze, GCStorage.upload, GCStorage._save, body_or_status.
  eexists. split; [crunch; reflexivity |].
  repeat split; cbn; tauto.
Qed.

End PersistFailure.

Section Deletion.
Context {host : Host}.

(** C1, on a schedule where the code departs from it.  Every service
    answers the sample job well.  The DELETE request goes out, and is
    answered, while the transcript and the sentiment writes are still
    outstanding; both then fail.  The recording is gone and only the
    audio blob is stored. *)
Theorem delete_overtakes_persistence (bytes : list Byte.byte) :
  Buffer_from_base64 (JStr "UklGRg==") = inr bytes ->
  exists c,
    exec (start (handler sample_body)) delete_overtakes_writes = Some c /\
    delete_gated sample_blobs [] (trace c) = false /\
    delete_gated ["abc123/abc123.wav"] [] (trace c) = true /\
    map fst (writes (trace c)) = sample_blobs /\
    map method (filter is_delete (requests (trace c))) = ["DELETE"] /\
    logged error (trace c)
    = ["contactId:abc123 _save - Error: socket hang up";
       "contactId:abc123 _save - Error: socket hang up"] /\
    In "contactId:abc123 _removeFile - file deleted" (logged info (trace c)) /\
    main c = Resolved tt /\
    background c = [].
Proof.
  intros Hbytes.
  unfold delete_overtakes_writes, until_recognizer, sample_body, handler, Admin.get,
    Admin.remove, Admin._getToken, Admin._getFile, Admin._removeFile, Sentiment.process,
    Sentiment._stt, Sentiment._analyze, GCStorage.upload, GCStorage._save, body_or_status.
  eexists. split; [crunch; reflexivity |].
  repeat split. cbn. tauto.
Qed.

End Deletion.

(* ===================================================================== *)
(** ** Gates and the event loop *)
(* ===================================================================== *)

Section GateLaws.

Variable gated : Op -> bool.
Variable opens : Op -> Reply -> bool.

Lemma gate_ok_app (tr1 tr2 : list Event) :
  forall open,
    gate_ok gated opens open (tr1 ++ tr2)
    = gate_ok gated opens open tr1 &&
      gate_ok gated opens (gate_after opens open tr1) tr2.
Proof.
  induction tr1 as [| ev tr1 IH]; intros open; simpl; [reflexivity |].
  destruct ev; try apply IH.
  rewrite IH. rewrite andb_assoc. reflexivity.
Qed.

Lemma gate_after_app (tr1 tr2 : list Event) :
  forall open,
    gate_after opens open (tr1 ++ tr2)
    = gate_after opens (gate_after opens open tr1) tr2.
Proof.
  induction tr1 as [| ev tr1 IH]; intros open; simpl; [reflexivity |].
  destruct ev; apply IH.
Qed.

(** An open gate stays open. *)
Lemma safe_open {A : Type} (t : Task A) :
  forall open, safe gated opens open t -> safe gated opens true t.
Proof.
  induction t as [A a | A e | A eff t IH | A op j IH | A child IHc t IH];
    intros open H; simpl in *; auto.
  - apply (IH open H).
  - destruct H as [_ H]. split; [reflexivity |].
    intros x. apply (IH x _ (H x)).
  - destruct H as [Hc Hk]. split; [apply (IHc _ Hc) | apply (IH _ Hk)].
Qed.

Lemma pend_safe_weaken {A : Type} (p : Pend A) (open b : bool) :
  pend_safe gated opens open p -> pend_safe gated opens (open || b) p.
Proof.
  destruct p as [op k]. simpl. intros H x.
  destruct open; simpl; [apply H |].
  destruct b; simpl; [apply (safe_open _ _ (H x)) | apply H].
Qed.

Lemma Forall_pend_weaken {A : Type} (open b : bool) (l : list (Pend A)) :
  Forall (pend_safe gated opens open) l -> Forall (pend_safe gated opens (open || b)) l.
Proof.
  intros H. eapply Forall_impl; [| exact H].
  intros p. apply pend_safe_weaken.
Qed.

Lemma status_safe_leftover (open : bool) (s : Status unit) :
  status_safe gated opens open s ->
  gate_ok gated opens open (fst (leftover s)) = true /\
  gate_after opens open (fst (leftover s)) = open /\
  Forall (pend_safe gated opens open) (snd (leftover s)).
Proof.
  destruct s as [a | e | p]; simpl; intros H; repeat split; try constructor.
  - exact H.
  - constructor.
Qed.

(** The synchronous part of a safe computation issues nothing gated
    while the gate is shut, and leaves safe computations behind. *)
Lemma run_safe {A : Type} (t : Task A) :
  forall open,
    safe gated opens open t ->
    gate_ok gated opens open (events (run t)) = true /\
    gate_after opens open (events (run t)) = open /\
    Forall (pend_safe gated opens open) (spawned (run t)) /\
    status_safe gated opens open (outcome (run t)).
Proof.
  induction t as [A a | A e | A eff t IH | A op j IH | A child IHc t IH];
    intros open H; simpl in *.
  - repeat split; constructor.
  - repeat split; constructor.
  - destruct (IH open H) as (H1 & H2 & H3 & H4). repeat split; assumption.
  - destruct H as [Hg Hk]. repeat split.
    + destruct (gated op); [rewrite (Hg eq_refl) |]; reflexivity.
    + constructor.
    + exact Hk.
  - destruct H as [Hc Hk].
    destruct (IHc open Hc) as (C1 & C2 & C3 & C4).
    destruct (IH open Hk) as (K1 & K2 & K3 & K4).
    destruct (status_safe_leftover _ _ C4) as (L1 & L2 & L3).
    repeat split.
    + rewrite !gate_ok_app, C1, C2, L1, L2, K1. reflexivity.
    + rewrite !gate_after_app, C2, L2, K2. reflexivity.
    + apply Forall_app. split; [exact C3 |]. apply Forall_app. split; assumption.
    + exact K4.
Qed.

Lemma deliver_to_reply {A : Type} (op : Op) (k : answer op -> Task A)
      (r : Reply) (t : Task A) :
  deliver (pend op k) r = Some t -> exists x, r = to_reply op x /\ t = k x.
Proof.
  destruct op; destruct r; simpl; intros H; try discriminate H;
    inversion H; eexists; split; reflexivity.
Qed.

Lemma Forall_replace_at {X : Type} (P : X -> Prop) (l new : list X) :
  forall i, Forall P l -> Forall P new -> Forall P (replace_at i l new).
Proof.
  induction l as [| x l IH]; intros i Hl Hn; destruct i; simpl; try constructor.
  - apply Forall_app. split; [exact Hn | inversion Hl; assumption].
  - inversion Hl; assumption.
  - apply IH; [inversion Hl; assumption | exact Hn].
Qed.

Lemma step_gate_inv {A : Type} (c c' : Config A) (ch : Choice) :
  step c ch = Some c' -> gate_inv gated opens c -> gate_inv gated opens c'.
Proof.
  unfold gate_inv, step. intros H (Hok & Hmain & Hbg).
  destruct ch as [r | i r].
  - destruct (main c) as [a | e | [op k]]; try discriminate H.
    destruct (deliver (pend op k) r) as [t |] eqn:D; try discriminate H.
    destruct (deliver_to_reply _ _ _ _ D) as (x & -> & ->).
    inversion H; subst c'; clear H. simpl in *.
    destruct (run_safe (k x) _ (Hmain x)) as (R1 & R2 & R3 & R4).
    rewrite gate_ok_app, gate_after_app. simpl.
    rewrite Hok, R1, R2. repeat split.
    + exact R4.
    + apply Forall_app. split; [apply Forall_pend_weaken; exact Hbg | exact R3].
  - destruct (nth_error (background c) i) as [[op k] |] eqn:N; try discriminate H.
    destruct (deliver (pend op k) r) as [t |] eqn:D; try discriminate H.
    destruct (deliver_to_reply _ _ _ _ D) as (x & -> & ->).
    inversion H; subst c'; clear H. simpl in *.
    assert (Hp : pend_safe gated opens (gate_after opens false (trace c)) (pend op k)).
    { apply nth_error_In in N. rewrite Forall_forall in Hbg. apply Hbg. exact N. }
    destruct (run_safe (k x) _ (Hp x)) as (R1 & R2 & R3 & R4).
    destruct (status_safe_leftover _ _ R4) as (L1 & L2 & L3).
    rewrite gate_ok_app, gate_after_app. simpl.
    rewrite gate_ok_app, gate_after_app.
    rewrite Hok, R1, R2, L1, L2. repeat split.
    + destruct (main c) as [a | e | p]; simpl in *; auto.
      apply pend_safe_weaken. exact Hmain.
    + apply Forall_app. split; [| exact R3].
      apply Forall_replace_at; [apply Forall_pend_weaken; exact Hbg | exact L3].
Qed.

Lemma exec_gate_inv {A : Type} (sched : list Choice) :
  forall c c' : Config A,
    exec c sched = Some c' -> gate_inv gated opens c -> gate_inv gated opens c'.
Proof.
  induction sched as [| ch sched IH]; intros c c' H Hi; cbn [exec] in H.
  - inversion H; subst; exact Hi.
  - destruct (step c ch) as [c1 |] eqn:E; try discriminate H.
    apply (IH c1 c' H). apply (step_gate_inv _ _ _ E Hi).
Qed.

(** A safe computation keeps the gate on every schedule. *)
Lemma safe_sound {A : Type} (t : Task A) (sched : list Choice) (c : Config A) :
  safe gated opens false t ->
  exec (start t) sched = Some c ->
  gate_ok gated opens false (trace c) = true.
Proof.
  intros H E.
  assert (I0 : gate_inv gated opens (start t)).
  { destruct (run_safe t false H) as (R1 & R2 & R3 & R4).
    unfold gate_inv, start. simpl. rewrite R1, R2. repeat split; assumption. }
  exact (proj1 (exec_gate_inv _ _ _ E I0)).
Qed.

End GateLaws.

(** The gate "a DELETE only after the 'finish' of [blob]" is the
    [delete_gated] of one blob. *)
Lemma delete_gated_one_blob (blob : string) (tr : list Event) :
  forall done,
    delete_gated [blob] done tr
    = gate_ok is_delete_op (finishes blob) (mem blob done) tr.
Proof.
  induction tr as [| ev tr IH]; intros done; simpl; [reflexivity |].
  destruct ev as [eff | op | op r | e]; try apply IH.
  - destruct op as [req | resp | b content]; simpl; rewrite IH; try reflexivity.
    rewrite andb_true_r. reflexivity.
  - destruct op as [req | resp | b content]; simpl;
      try (rewrite orb_false_r; destruct r; apply IH).
    destruct r as [x | x | [e |]]; simpl; try (rewrite orb_false_r; apply IH).
    rewrite IH. unfold mem. simpl.
    rewrite (String.eqb_sym blob b), orb_comm. reflexivity.
Qed.

(** A promise whose computation never throws is never rejected. *)
Lemma run_never_throws {A : Type} (t : Task A) :
  never_throws t -> never_rejected (outcome (run t)).
Proof.
  induction t as [A a | A e | A eff t IH | A op j IH | A child IHc t IH];
    simpl; intros H; auto.
Qed.

Lemma exec_never_rejected {A : Type} (sched : list Choice) :
  forall c c' : Config A,
    exec c sched = Some c' -> never_rejected (main c) -> never_rejected (main c').
Proof.
  induction sched as [| ch sched IH]; intros c c' H Hn; cbn [exec] in H.
  - inversion H; subst; exact Hn.
  - destruct (step c ch) as [c1 |] eqn:E; try discriminate H.
    apply (IH c1 c' H). unfold step in E.
    destruct ch as [r | i r].
    + destruct (main c) as [a | e | [op k]]; try discriminate E.
      destruct (deliver (pend op k) r) as [t |] eqn:D; try discriminate E.
      destruct (deliver_to_reply _ _ _ _ D) as (x & -> & ->).
      inversion E; subst c1. simpl. apply run_never_throws. apply Hn.
    + destruct (nth_error (background c) i) as [p |]; try discriminate E.
      destruct (deliver p r); try discriminate E.
      inversion E; subst c1. exact Hn.
Qed.

(* ===================================================================== *)
(** ** The handler on every schedule *)
(* ===================================================================== *)

Section EverySchedule.
Context {host : Host}.

(** A body that is an object or an array is read as the pair of its two
    fields. *)
Lemma handler_reads_two_fields (body : Val) :
  is_object body = true ->
  handler body
  = handler (JObj [("contactId", field body "contactId");
                   ("fileName", field body "fileName")]).
Proof. intros H. destruct body; try discriminate H; reflexivity. Qed.

Lemma handler_delete_safe (contactId fileName : Val) :
  safe is_delete_op (finishes (audio_blob contactId)) false
       (handler (JObj [("contactId", contactId); ("fileName", fileName)])).
Proof.
  unfold_program. unfold audio_blob, finishes. cbn. walk.
  unfold GCStorage.bucket_file. rewrite String.eqb_refl. reflexivity.
Qed.

(** X1.  On every schedule of every job, a DELETE request is sent only after
    the write stream of the audio blob has emitted 'finish'. *)
Theorem delete_only_after_audio_written (body : Val) (sched : list Choice) (c : Config unit) :
  is_object body = true ->
  exec (start (handler body)) sched = Some c ->
  delete_gated [audio_blob (field body "contactId")] [] (trace c) = true.
Proof.
  intros Hobj H. rewrite (handler_reads_two_fields body Hobj) in H.
  rewrite delete_gated_one_blob.
  exact (safe_sound _ _ _ _ _ (handler_delete_safe _ _) H).
Qed.

Lemma handler_write_safe (contactId fileName : Val) :
  safe is_write_op (answered_ok (is_request_to properties.gcpSntUrl)) false
       (handler (JObj [("contactId", contactId); ("fileName", fileName)])).
Proof. unfold_program. literal_urls. unfold answered_ok. cbn. walk. Qed.

Lemma handler_analysis_safe (contactId fileName : Val) :
  safe (is_request_to properties.gcpSntUrl)
       (answered_ok (is_request_to properties.gcpSttUrl)) false
       (handler (JObj [("contactId", contactId); ("fileName", fileName)])).
Proof. unfold_program. literal_urls. unfold answered_ok. cbn. walk. Qed.

Lemma handler_recognizer_safe (contactId fileName : Val) :
  safe (is_request_to properties.gcpSttUrl) (answered_ok is_get) false
       (handler (JObj [("contactId", contactId); ("fileName", fileName)])).
Proof. unfold_program. literal_urls. unfold answered_ok. cbn. walk. Qed.

Lemma handler_file_safe (contactId fileName : Val) :
  safe is_file_request (answered_ok (is_request_to properties.incontactTokenUrl)) false
       (handler (JObj [("contactId", contactId); ("fileName", fileName)])).
Proof. unfold_program. literal_urls. unfold answered_ok. cbn. walk. Qed.

(** X2.  On every schedule of every job the stages come in order: a file
    request (GET or DELETE) only after the token endpoint has answered
    with a success status, the recognizer request only after such an
    answer to the GET, the sentiment request only after such an answer of
    the recognizer, and a write stream only after such an answer of the
    sentiment service. *)
Theorem stages_in_order (body : Val) (sched : list Choice) (c : Config unit) :
  is_object body = true ->
  exec (start (handler body)) sched = Some c ->
  gate_ok is_file_request (answered_ok (is_request_to properties.incontactTokenUrl))
          false (trace c) = true /\
  gate_ok (is_request_to properties.gcpSttUrl) (answered_ok is_get) false (trace c) = true /\
  gate_ok (is_request_to properties.gcpSntUrl)
          (answered_ok (is_request_to properties.gcpSttUrl)) false (trace c) = true /\
  gate_ok is_write_op (answered_ok (is_request_to properties.gcpSntUrl))
          false (trace c) = true.
Proof.
  intros Hobj H. rewrite (handler_reads_two_fields body Hobj) in H.
  repeat split.
  - exact (safe_sound _ _ _ _ _ (handler_file_safe _ _) H).
  - exact (safe_sound _ _ _ _ _ (handler_recognizer_safe _ _) H).
  - exact (safe_sound _ _ _ _ _ (handler_analysis_safe _ _) H).
  - exact (safe_sound _ _ _ _ _ (handler_write_safe _ _) H).
Qed.

Lemma handler_never_throws (contactId fileName : Val) :
  never_throws (handler (JObj [("contactId", contactId); ("fileName", fileName)])).
Proof. unfold_program. cbn. walk. Qed.

(** X3.  On every schedule the handler's own chain is pending or resolved:
    whatever fails, its [.catch] turns the rejection into a log line. *)
Theorem handler_chain_never_rejects (body : Val) (sched : list Choice) (c : Config unit) :
  is_object body = true ->
  exec (start (handler body)) sched = Some c ->
  forall e, main c <> Rejected e.
Proof.
  intros Hobj H e He. rewrite (handler_reads_two_fields body Hobj) in H.
  assert (N : never_rejected (main c)).
  { apply (exec_never_rejected _ _ _ H). apply run_never_throws.
    apply handler_never_throws. }
  rewrite He in N. exact N.
Qed.

End EverySchedule.

(* ===================================================================== *)
(** ** The REST wrappers, one call at a time *)
(* ===================================================================== *)

Section Wrappers.
Context {host : Host}.

Variables (this : Admin.t) (contactId token uri fileName msg text : Val) (address : string).

(** X7.  [_removeFile] sends one DELETE for the file with the bearer token and
    settles on the response alone, without reading a body: a success
    status resolves it with [{text: statusText}], any other status
    rejects it with an Error whose message is the status text, and a
    failed request rejects it with the request's error. *)
Theorem removeFile_contract (resp : Response) :
  requests (trace (start (Admin._removeFile contactId token uri fileName)))
  = [file_request "DELETE" token uri fileName] /\
  (ok resp = true ->
   exists c,
     run_with (Admin._removeFile contactId token uri fileName) [RFetch (inr resp)] = Some c /\
     main c = Resolved (JObj [("text", JStr (statusText resp))]) /\
     reads_body (trace c) = false /\
     logged info (trace c) = ["contactId:" ++ toStr contactId ++ " _removeFile - file deleted"] /\
     logged error (trace c) = []) /\
  (ok resp = false ->
   exists c,
     run_with (Admin._removeFile contactId token uri fileName) [RFetch (inr resp)] = Some c /\
     main c = Rejected (Error (statusText resp)) /\
     reads_body (trace c) = false /\
     logged info (trace c) = [] /\
     logged error (trace c)
     = ["contactId:" ++ toStr contactId ++ " _removeFile - " ++
        errStr (Error (statusText resp))]) /\
  (forall e,
     rejects (Admin._removeFile contactId token uri fileName) [RFetch (inl e)] e).
Proof.
  unfold run_with, rejects, settles, Admin._removeFile.
  split; [reflexivity |].
  split; [| split].
  - intros Hok. eexists. split; [crunch; reflexivity |]. repeat split.
  - intros Hok. eexists. split; [crunch; reflexivity |]. repeat split.
  - intros e. reflexivity.
Qed.

(** X11.  With a status that is not a success, every wrapper that reads a body
    rejects with "Response status: <status>", logs it once, and does not
    call [response.json()]. *)
Theorem failed_status_skips_body (resp : Response) :
  ok resp = false ->
  let e := Error ("Response status: " ++ string_of_Z (status resp)) in
  (exists c,
     run_with (Admin._getToken this contactId token address) [RFetch (inr resp)] = Some c /\
     main c = Rejected e /\ reads_body (trace c) = false /\ background c = [] /\
     logged error (trace c)
     = ["contactId:" ++ toStr contactId ++ " _getToken - " ++ errStr e]) /\
  (exists c,
     run_with (Admin._getFile contactId token uri fileName) [RFetch (inr resp)] = Some c /\
     main c = Rejected e /\ reads_body (trace c) = false /\ background c = [] /\
     logged error (trace c)
     = ["contactId:" ++ toStr contactId ++ " _getFile - " ++ errStr e]) /\
  (exists c,
     run_with (Sentiment._stt contactId msg) [RFetch (inr resp)] = Some c /\
     main c = Rejected e /\ reads_body (trace c) = false /\ background c = [] /\
     logged error (trace c)
     = ["contactId:" ++ toStr contactId ++ " _stt - " ++ errStr e]) /\
  (exists c,
     run_with (Sentiment._analyze contactId text) [RFetch (inr resp)] = Some c /\
     main c = Rejected e /\ reads_body (trace c) = false /\ background c = [] /\
     logged error (trace c)
     = ["contactId:" ++ toStr contactId ++ " _analyze - " ++ errStr e]).
Proof.
  intros Hok e.
  unfold run_with, Admin._getToken, Admin._getFile, Sentiment._stt, Sentiment._analyze,
    body_or_status.
  repeat split; eexists; (split; [crunch; reflexivity |]); repeat split.
Qed.

(** X12.  The error of a failed request, and the error of a body that cannot
    be read, reach the caller of every wrapper as they are. *)
Theorem wrappers_pass_errors_on (resp : Response) (e : Err) :
  (rejects (Admin._getToken this contactId token address) [RFetch (inl e)] e /\
   rejects (Admin._getFile contactId token uri fileName) [RFetch (inl e)] e /\
   rejects (Admin._removeFile contactId token uri fileName) [RFetch (inl e)] e /\
   rejects (Sentiment._stt contactId msg) [RFetch (inl e)] e /\
   rejects (Sentiment._analyze contactId text) [RFetch (inl e)] e) /\
  (ok resp = true ->
   rejects (Admin._getToken this contactId token address)
           [RFetch (inr resp); RJson (inl e)] e /\
   rejects (Admin._getFile contactId token uri fileName)
           [RFetch (inr resp); RJson (inl e)] e /\
   rejects (Sentiment._stt contactId msg) [RFetch (inr resp); RJson (inl e)] e /\
   rejects (Sentiment._analyze contactId text) [RFetch (inr resp); RJson (inl e)] e).
Proof.
  unfold rejects, settles, Admin._getToken, Admin._getFile, Admin._removeFile,
    Sentiment._stt, Sentiment._analyze, body_or_status.
  split.
  - repeat split.
  - intros Hok. repeat split; crunch; reflexivity.
Qed.

End Wrappers.

(* ===================================================================== *)
(** ** The composed calls *)
(* ===================================================================== *)

Section Composed.
Context {host : Host}.

Variables (contactId fileName : Val).

(** X8.  [get] asks for a token first and then for the file, with the
    [access_token] of the token answer as bearer and its
    [resource_server_base_uri] in front of the address, and resolves with
    the [files] of the file answer. *)
Theorem get_uses_the_token (resp1 resp2 : Response) (token a u json files file : Val) :
  ok resp1 = true ->
  getProp token "access_token" = inr a -> truthy a = true ->
  getProp token "resource_server_base_uri" = inr u -> truthy u = true ->
  ok resp2 = true ->
  getProp json "files" = inr files -> truthy files = true ->
  getProp files "file" = inr file -> file <> JUndef -> file <> JNull ->
  exists c,
    run_with (Admin.get admin contactId fileName)
             [RFetch (inr resp1); RJson (inr token); RFetch (inr resp2); RJson (inr json)]
    = Some c /\
    main c = Resolved files /\
    requests (trace c)
    = [token_request admin properties.incontactTokenUrl;
       file_request "GET" a u fileName] /\
    logged error (trace c) = [] /\
    background c = [].
Proof.
  intros Hok1 Ha Hta Hu Htu Hok2 Hfiles Htf Hfile Hn1 Hn2.
  assert (Htoken : truthy token = true)
    by (apply (truthy_property token a "access_token"); [discriminate | assumption | assumption]).
  assert (Hjson : truthy json = true)
    by (apply (truthy_property json files "files"); [discriminate | assumption | assumption]).
  assert (Hlen : exists len, getProp file "length" = inr len)
    by (destruct file; try contradiction; eexists; reflexivity).
  destruct Hlen as [len Hlen].
  unfold run_with, Admin.get, Admin._getToken, Admin._getFile, body_or_status,
    Admin.token_present, Admin.files_present.
  eexists. split; [crunch; reflexivity |]. repeat split.
Qed.

(** X9.  [remove] asks for a token of its own and then sends the DELETE for
    the same address that [get] reads, given the same base URI; it
    resolves with the status text of the answer. *)
Theorem remove_uses_a_fresh_token (resp1 resp2 : Response) (token a u : Val) :
  ok resp1 = true ->
  getProp token "access_token" = inr a -> truthy a = true ->
  getProp token "resource_server_base_uri" = inr u -> truthy u = true ->
  ok resp2 = true ->
  exists c,
    run_with (Admin.remove admin contactId fileName)
             [RFetch (inr resp1); RJson (inr token); RFetch (inr resp2)]
    = Some c /\
    main c = Resolved (JObj [("text", JStr (statusText resp2))]) /\
    requests (trace c)
    = [token_request admin properties.incontactTokenUrl;
       file_request "DELETE" a u fileName] /\
    url (file_request "DELETE" a u fileName) = url (file_request "GET" a u fileName) /\
    logged error (trace c) = [] /\
    background c = [].
Proof.
  intros Hok1 Ha Hta Hu Htu Hok2.
  assert (Htoken : truthy token = true)
    by (apply (truthy_property token a "access_token"); [discriminate | assumption | assumption]).
  unfold run_with, Admin.remove, Admin._getToken, Admin._removeFile, body_or_status,
    Admin.token_present.
  eexists. split; [crunch; reflexivity |]. repeat split.
Qed.

(** X10.  [process] sends the audio to the recognizer and the transcript it
    gets back, as it is, to the sentiment service; it resolves with that
    transcript paired with the [documentSentiment] of the second
    answer. *)
Theorem process_analyses_the_transcript
        (audio : Val) (resp1 resp2 : Response)
        (recognized first alternative analysed d : Val) (rest rest' : list Val) (s : string) :
  ok resp1 = true ->
  getProp recognized "results" = inr (JArr (first :: rest)) ->
  getProp first "alternatives" = inr (JArr (alternative :: rest')) ->
  getProp alternative "transcript" = inr (JStr s) ->
  s <> "" ->
  ok resp2 = true ->
  getProp analysed "documentSentiment" = inr d -> truthy d = true ->
  exists c,
    run_with (Sentiment.process contactId audio)
             [RFetch (inr resp1); RJson (inr recognized);
              RFetch (inr resp2); RJson (inr analysed)]
    = Some c /\
    main c = Resolved (JObj [("transcript", JStr s); ("sentiment", d)]) /\
    requests (trace c) = [stt_request audio; snt_request (JStr s)] /\
    logged error (trace c) = [] /\
    background c = [].
Proof.
  intros Hok1 Hres Halt Htr Hs Hok2 Hd Htd.
  apply String.eqb_neq in Hs.
  unfold run_with, Sentiment.process, Sentiment._stt, Sentiment._analyze, body_or_status,
    Sentiment.transcript_present, Sentiment.first_transcript.
  eexists. split; [crunch; reflexivity |]. repeat split.
Qed.

Variables (audio transcript sentiment : Content).

(** X13.  When the audio write fails, [upload] rejects with the stream's
    error, which [_save] and [upload] each log once, and neither of the
    other two write streams is opened. *)
Theorem upload_fails_with_the_audio_write (e : Err) :
  exists c,
    run_with (GCStorage.upload contactId audio transcript sentiment) [RStream (Some e)]
    = Some c /\
    main c = Rejected e /\
    writes (trace c) = [(audio_blob contactId, audio)] /\
    logged error (trace c)
    = ["contactId:" ++ toStr contactId ++ " _save - " ++ errStr e;
       "contactId:" ++ toStr contactId ++ " _upload - " ++ errStr e] /\
    background c = [].
Proof. eexists. split; [reflexivity |]. repeat split. Qed.

(** X14.  When the transcript or the sentiment write fails, [_save] logs the
    error and nobody handles the rejection: [upload]'s promise is and
    stays resolved, its [.catch] logs nothing, and the other write goes
    on. *)
Theorem dropped_write_failure_is_unhandled (e : Err) :
  (exists c,
     exec (start (GCStorage.upload contactId audio transcript sentiment))
          [Main (RStream None); Background 0 (RStream (Some e))] = Some c /\
     main c = Resolved tt /\
     In (Unhandled e) (trace c) /\
     logged error (trace c) = ["contactId:" ++ toStr contactId ++ " _save - " ++ errStr e] /\
     map (fun p => is_write_op (@op_of unit p)) (background c) = [true]) /\
  (exists c,
     exec (start (GCStorage.upload contactId audio transcript sentiment))
          [Main (RStream None); Background 1 (RStream (Some e))] = Some c /\
     main c = Resolved tt /\
     In (Unhandled e) (trace c) /\
     logged error (trace c) = ["contactId:" ++ toStr contactId ++ " _save - " ++ errStr e] /\
     map (fun p => is_write_op (@op_of unit p)) (background c) = [true]).
Proof.
  split; eexists; (split; [reflexivity |]); repeat split; cbn; tauto.
Qed.

End Composed.

(* ===================================================================== *)
(** ** Whole jobs *)
(* ===================================================================== *)

(** Run a whole job of the handler on the facts at hand. *)
Ltac run_job :=
  unfold whole_job, until_analysis, run_with, handler, Admin.get, Admin.remove,
    Admin._getToken, Admin._getFile, Admin._removeFile, Sentiment.process, Sentiment._stt,
    Sentiment._analyze, GCStorage.upload, GCStorage._save, body_or_status,
    Admin.token_present, Admin.files_present, Sentiment.transcript_present,
    Sentiment.first_transcript;
  crunch.

Section WholeJobs.
Context {host : Host}.

Variables (body contactId fileName : Val).
Hypothesis Hc : getProp body "contactId" = inr contactId.
Hypothesis Hf : getProp body "fileName" = inr fileName.

(** The answers of a job whose four services all answer well. *)
Variables (resp1 resp2 resp3 resp4 : Response).
Variables (token1 a1 u1 files recording audio len : Val).
Variables (recognized first alternative analysed d : Val) (rest rest' : list Val) (s : string).
Variable bytes : list Byte.byte.

Hypothesis Hok1 : ok resp1 = true.
Hypothesis Ha1 : getProp token1 "access_token" = inr a1.
Hypothesis Hta1 : truthy a1 = true.
Hypothesis Hu1 : getProp token1 "resource_server_base_uri" = inr u1.
Hypothesis Htu1 : truthy u1 = true.
Hypothesis Hok2 : ok resp2 = true.
Hypothesis Hrec : getProp files "files" = inr recording.
Hypothesis Htrec : truthy recording = true.
Hypothesis Haudio : getProp recording "file" = inr audio.
Hypothesis Hlen : getProp audio "length" = inr len.
Hypothesis Hok3 : ok resp3 = true.
Hypothesis Hres : getProp recognized "results" = inr (JArr (first :: rest)).
Hypothesis Halt : getProp first "alternatives" = inr (JArr (alternative :: rest')).
Hypothesis Htr : getProp alternative "transcript" = inr (JStr s).
Hypothesis Hs : s <> "".
Hypothesis Hok4 : ok resp4 = true.
Hypothesis Hd : getProp analysed "documentSentiment" = inr d.
Hypothesis Htd : truthy d = true.

Lemma first_token_truthy : truthy token1 = true.
Proof.
  apply (truthy_property token1 a1 "access_token"); [discriminate | assumption | assumption].
Qed.

Lemma files_body_truthy : truthy files = true.
Proof.
  apply (truthy_property files recording "files"); [discriminate | assumption | assumption].
Qed.

Lemma transcript_not_empty : (s =? "") = false.
Proof. apply String.eqb_neq. exact Hs. Qed.

(** X6.  When [Buffer.from(audio, 'base64')] throws, after the transcription
    and the analysis have been paid for, the job ends there: the handler
    reports the error, no write stream is opened and no DELETE is
    sent. *)
Theorem unreadable_audio_ends_job (e : Err) :
  Buffer_from_base64 audio = inl e ->
  exists c,
    exec (start (handler body))
         (map Main (until_analysis resp1 resp2 resp3 resp4 token1 files recognized analysed))
    = Some c /\
    requests (trace c)
    = [token_request admin properties.incontactTokenUrl;
       file_request "GET" a1 u1 fileName;
       stt_request audio; snt_request (JStr s)] /\
    writes (trace c) = [] /\
    logged error (trace c)
    = ["contactId:" ++ toStr contactId ++ " webserver - " ++ errStr e] /\
    main c = Resolved tt /\
    background c = [].
Proof.
  intros Hb.
  pose proof first_token_truthy as Htoken1. pose proof files_body_truthy as Hfiles.
  pose proof transcript_not_empty as Hs'.
  eexists. split; [run_job; reflexivity |]. repeat split.
Qed.

Variables (resp5 resp6 : Response) (token2 a2 u2 : Val).
Hypothesis Hb : Buffer_from_base64 audio = inr bytes.
Hypothesis Hok5 : ok resp5 = true.
Hypothesis Ha2 : getProp token2 "access_token" = inr a2.
Hypothesis Hta2 : truthy a2 = true.
Hypothesis Hu2 : getProp token2 "resource_server_base_uri" = inr u2.
Hypothesis Htu2 : truthy u2 = true.

Lemma second_token_truthy : truthy token2 = true.
Proof.
  apply (truthy_property token2 a2 "access_token"); [discriminate | assumption | assumption].
Qed.

(** X4.  A job whose services all answer well: the decoded audio, the
    recognizer's transcript and the stringified [documentSentiment] are
    written to the three blobs, six requests are sent (two of them for a
    token, the DELETE with the second token), no error is logged, no
    rejection is left unhandled, and nothing is outstanding at the
    end. *)
Theorem whole_job_succeeds :
  ok resp6 = true ->
  exists c,
    exec (start (handler body))
         (whole_job resp1 resp2 resp3 resp4 resp5 resp6 token1 files recognized analysed token2)
    = Some c /\
    writes (trace c)
    = [(audio_blob contactId, Buffer bytes);
       (transcript_blob contactId, Plain (JStr s));
       (sentiment_blob contactId, Plain (JStr (JSON_stringify d)))] /\
    requests (trace c)
    = [token_request admin properties.incontactTokenUrl;
       file_request "GET" a1 u1 fileName;
       stt_request audio; snt_request (JStr s);
       token_request admin properties.incontactTokenUrl;
       file_request "DELETE" a2 u2 fileName] /\
    logged error (trace c) = [] /\
    no_unhandled (trace c) = true /\
    main c = Resolved tt /\
    background c = [].
Proof.
  intros Hok6.
  pose proof first_token_truthy as Htoken1. pose proof files_body_truthy as Hfiles.
  pose proof transcript_not_empty as Hs'. pose proof second_token_truthy as Htoken2.
  eexists. split; [run_job; reflexivity |]. repeat split.
Qed.

(** X5.  When the DELETE is refused, [_removeFile] and [remove] log the
    error, the handler's [.catch] does not (its chain resolved when it
    called [remove]), and the rejection is left unhandled. *)
Theorem failed_delete_is_not_reported :
  ok resp6 = false ->
  exists c,
    exec (start (handler body))
         (whole_job resp1 resp2 resp3 resp4 resp5 resp6 token1 files recognized analysed token2)
    = Some c /\
    logged error (trace c)
    = ["contactId:" ++ toStr contactId ++ " _removeFile - " ++ errStr (Error (statusText resp6));
       "contactId:" ++ toStr contactId ++ " remove - " ++ errStr (Error (statusText resp6))] /\
    In (Unhandled (Error (statusText resp6))) (trace c) /\
    map fst (writes (trace c))
    = [audio_blob contactId; transcript_blob contactId; sentiment_blob contactId] /\
    main c = Resolved tt /\
    background c = [].
Proof.
  intros Hok6.
  pose proof first_token_truthy as Htoken1. pose proof files_body_truthy as Hfiles.
  pose proof transcript_not_empty as Hs'. pose proof second_token_truthy as Htoken2.
  eexists. split; [run_job; reflexivity |]. repeat split.
  cbn. tauto.
Qed.

End WholeJobs.

(* ===================================================================== *)
(** ** What the layers log *)
(* ===================================================================== *)

Lemma logged_app (lvl : Level) (tr1 tr2 : list Event) :
  logged lvl (tr1 ++ tr2) = (logged lvl tr1 ++ logged lvl tr2)%list.
Proof.
  induction tr1 as [| ev tr1 IH]; simpl; [reflexivity |].
  destruct ev as [[l line | code] | op | op r | e]; try exact IH.
  destruct lvl, l; simpl; rewrite IH; reflexivity.
Qed.

Lemma requests_app (tr1 tr2 : list Event) :
  requests (tr1 ++ tr2) = (requests tr1 ++ requests tr2)%list.
Proof.
  induction tr1 as [| ev tr1 IH]; simpl; [reflexivity |].
  destruct ev as [eff | [req | resp | blob content] | op r | e]; try exact IH.
  simpl. rewrite IH. reflexivity.
Qed.

Lemma writes_app (tr1 tr2 : list Event) :
  writes (tr1 ++ tr2) = (writes tr1 ++ writes tr2)%list.
Proof.
  induction tr1 as [| ev tr1 IH]; simpl; [reflexivity |].
  destruct ev as [eff | [req | resp | blob content] | op r | e]; try exact IH.
  simpl. rewrite IH. reflexivity.
Qed.

Section Layers.
Context {host : Host}.

Variables (body contactId fileName : Val).
Hypothesis Hc : getProp body "contactId" = inr contactId.
Hypothesis Hf : getProp body "fileName" = inr fileName.

(** X15.  However the token request of [get] fails, the error is logged once
    more by [get] and once more by the handler, in this order, after
    whatever [_getToken] logged; the job sends and writes nothing
    beyond what [_getToken] did. *)
Theorem token_error_logged_by_each_layer (rs : list Reply) (c1 : Config Val) (e : Err) :
  exec (start (Admin._getToken admin contactId (JStr (Admin.key admin))
                               properties.incontactTokenUrl))
       (map Main rs) = Some c1 ->
  main c1 = Rejected e ->
  exists c,
    exec (start (handler body)) (map Main rs) = Some c /\
    logged error (trace c)
    = List.app (logged error (trace c1))
               ["contactId:" ++ toStr contactId ++ " get - " ++ errStr e;
                "contactId:" ++ toStr contactId ++ " webserver - " ++ errStr e] /\
    requests (trace c) = requests (trace c1) /\
    writes (trace c) = writes (trace c1) /\
    main c = Resolved tt.
Proof.
  intros H Hm.
  pose proof (token_failure_stops_get contactId fileName rs c1 e H Hm) as G.
  pose proof (get_failure_ends_job body contactId fileName Hc Hf rs _ e G eq_refl) as J.
  eexists. split; [exact J |].
  cbn [trace main background].
  unfold preamble, reported.
  rewrite !logged_app, !requests_app, !writes_app. cbn.
  rewrite ?app_nil_r, <- ?app_assoc. repeat split.
Qed.

(** X16.  The same for the transcription: [process] and the handler each log
    the error of [_stt] once more, and no stage after it runs. *)
Theorem stt_error_logged_by_each_layer
        (rs1 rs2 : list Reply) (c1 c2 : Config Val) (files audio : Val) (e : Err) :
  exec (start (Admin.get admin contactId fileName)) (map Main rs1) = Some c1 ->
  main c1 = Resolved files ->
  getProp files "file" = inr audio ->
  exec (start (Sentiment._stt contactId audio)) (map Main rs2) = Some c2 ->
  main c2 = Rejected e ->
  exists c,
    exec (start (handler body)) (map Main (rs1 ++ rs2)) = Some c /\
    logged error (trace c)
    = List.app (logged error (trace c1))
               (List.app (logged error (trace c2))
                         ["contactId:" ++ toStr contactId ++ " process - " ++ errStr e;
                          "contactId:" ++ toStr contactId ++ " webserver - " ++ errStr e]) /\
    requests (trace c) = (requests (trace c1) ++ requests (trace c2))%list /\
    writes (trace c) = (writes (trace c1) ++ writes (trace c2))%list /\
    main c = Resolved tt.
Proof.
  intros H1 Hm1 Hfile H2 Hm2.
  pose proof (stt_failure_stops_process contactId audio rs2 c2 e H2 Hm2) as P.
  pose proof (process_failure_ends_job body contactId fileName Hc Hf rs1 rs2 c1 _
                                       files audio e H1 Hm1 Hfile P eq_refl) as J.
  eexists. split; [exact J |].
  cbn [trace main background].
  unfold preamble, reported.
  rewrite !logged_app, !requests_app, !writes_app. cbn.
  rewrite ?app_nil_r, <- ?app_assoc. repeat split.
Qed.

End Layers.

Section NullBody.
Context {host : Host}.

Variables (this : Admin.t) (contactId token uri fileName msg text : Val) (address : string).

(** X17.  A body that is falsy ([null], [false], [0], the empty string):
    the two Admin wrappers test the body before they read it and fail
    with their own message; the two Sentiment wrappers read a property
    of it first, and fail with the TypeError of that read when the body
    is [null], with "Invalid/missing result value" otherwise. *)
Theorem falsy_body (resp : Response) (json : Val) :
  ok resp = true ->
  truthy json = false ->
  json <> JUndef ->
  rejects (Admin._getToken this contactId token address)
          [RFetch (inr resp); RJson (inr json)] (Error "Missing token and/or uri") /\
  rejects (Admin._getFile contactId token uri fileName)
          [RFetch (inr resp); RJson (inr json)] (Error "Missing files object") /\
  (json = JNull ->
   rejects (Sentiment._stt contactId msg)
           [RFetch (inr resp); RJson (inr json)]
           (TypeError "Cannot read property 'results' of null") /\
   rejects (Sentiment._analyze contactId text)
           [RFetch (inr resp); RJson (inr json)]
           (TypeError "Cannot read property 'documentSentiment' of null")) /\
  (json <> JNull ->
   rejects (Sentiment._stt contactId msg)
           [RFetch (inr resp); RJson (inr json)] (Error "Invalid/missing result value") /\
   rejects (Sentiment._analyze contactId text)
           [RFetch (inr resp); RJson (inr json)] (Error "Invalid/missing result value")).
Proof.
  intros Hok Hfalsy Hundef.
  unfold rejects, settles, Admin._getToken, Admin._getFile, Sentiment._stt,
    Sentiment._analyze, body_or_status, Admin.token_present, Admin.files_present,
    Sentiment.transcript_present.
  split; [crunch; reflexivity |].
  split; [crunch; reflexivity |].
  split.
  - intros ->. split; crunch; reflexivity.
  - intros Hnull.
    destruct json as [| | b | z | str | elems | props];
      try contradiction; try discriminate Hfalsy.
    + split; crunch; reflexivity.
    + split; crunch; reflexivity.
    + unfold truthy in Hfalsy. apply negb_false_iff in Hfalsy.
      apply String.eqb_eq in Hfalsy. subst str.
      split; crunch; reflexivity.
Qed.

End NullBody.

(* ===================================================================== *)
(** ** The sample job, run *)
(* ===================================================================== *)

#[local] Existing Instance sample_host.

(** The audio write of contact "abc123" finishes: the promise is
    resolved with two writes outstanding, and stays resolved when the
    transcript write fails.  It fails instead: the promise is rejected,
    and the only write is that of the audio. *)
Lemma upload_awaits_only_first_write_witness :
  (exists c c',
    step (start (GCStorage.upload (JStr "abc123") (Buffer []) (Plain (JStr "hello"))
                                  (Plain (JStr "{}"))))
         (Main (RStream None)) = Some c /\
    map (@op_of unit) (background c)
    = [WriteStream "abc123/abc123.txt" (Plain (JStr "hello"));
       WriteStream "abc123/abc123.json" (Plain (JStr "{}"))] /\
    exec c [Background 0 (RStream (Some (Error "socket hang up")))] = Some c' /\
    main c' = Resolved tt) /\
  (exists c,
    exec (start (GCStorage.upload (JStr "abc123") (Buffer []) (Plain (JStr "hello"))
                                  (Plain (JStr "{}"))))
         [Main (RStream (Some (Error "socket hang up")))] = Some c /\
    main c = Rejected (Error "socket hang up") /\
    main c <> Resolved tt /\
    writes (trace c) = [("abc123/abc123.wav", Buffer [])]).
Proof.
  destruct (upload_awaits_only_first_write
              (JStr "abc123") (Buffer []) (Plain (JStr "hello")) (Plain (JStr "{}")))
    as (_ & _ & (c & Hstep & _ & Hbg & Hlater) & _ & _ & Herr & _ & Hwrites).
  split.
  - cbn in Hstep. inversion Hstep as [Hc]. subst c.
    eexists. eexists.
    split; [reflexivity |].
    split; [reflexivity |].
    split; [reflexivity |].
    apply (Hlater [Background 0 (RStream (Some (Error "socket hang up")))]).
    reflexivity.
  - destruct (Herr (Error "socket hang up")) as (c' & Hstep' & Hmain & _).
    cbn in Hstep'. inversion Hstep' as [Hc']. subst c'.
    eexists. split; [reflexivity |].
    split; [reflexivity |].
    split; [discriminate |].
    apply (Hwrites [Main (RStream (Some (Error "socket hang up")))]);
      [reflexivity | discriminate].
Defined.

(** The blobs of contact "abc123", on a schedule that lets the sentiment
    write finish and the transcript write fail. *)
Lemma upload_blob_names_witness :
  exists c,
    exec (start (GCStorage.upload (JStr "abc123") (Buffer []) (Plain (JStr "hello"))
                                  (Plain (JStr "{}"))))
         [Main (RStream None); Background 1 (RStream None);
          Background 0 (RStream (Some (Error "socket hang up")))] = Some c /\
    map fst (writes (trace c))
    = ["abc123/abc123.wav"; "abc123/abc123.txt"; "abc123/abc123.json"].
Proof.
  eexists. split; [reflexivity |].
  destruct (proj2 (upload_blob_names (JStr "abc123") (Buffer []) (Plain (JStr "hello"))
                                     (Plain (JStr "{}")))
                  [Main (RStream None); Background 1 (RStream None);
                   Background 0 (RStream (Some (Error "socket hang up")))]
                  _ eq_refl) as [H | H]; reflexivity.
Defined.


(** The three cases of the token contract: the sample token, a body
    without [access_token], and a 401. *)
Lemma getToken_contract_witness :
  resolves (Admin._getToken admin (JStr "abc123") (JStr (Admin.key admin))
                            properties.incontactTokenUrl)
           [RFetch (inr ok200); RJson (inr sample_token)] sample_token /\
  rejects (Admin._getToken admin (JStr "abc123") (JStr (Admin.key admin))
                           properties.incontactTokenUrl)
          [RFetch (inr ok200);
           RJson (inr (JObj [("resource_server_base_uri", JStr "https://api.incontact.example/")]))]
          (Error "Missing token and/or uri") /\
  rejects (Admin._getToken admin (JStr "abc123") (JStr (Admin.key admin))
                           properties.incontactTokenUrl)
          [RFetch (inr (mkResponse 401 "Unauthorized"))]
          (Error "Response status: 401").
Proof.
  split; [| split].
  - apply (proj1 (getToken_contract admin (JStr "abc123") (JStr (Admin.key admin))
                                    properties.incontactTokenUrl ok200 sample_token)
                 eq_refl (JStr "t0k3n") (JStr "https://api.incontact.example/"));
      reflexivity.
  - apply (proj1 (proj2 (getToken_contract
                           admin (JStr "abc123") (JStr (Admin.key admin))
                           properties.incontactTokenUrl ok200
                           (JObj [("resource_server_base_uri",
                                   JStr "https://api.incontact.example/")])))
                 eq_refl).
    right; left; reflexivity.
  - exact (proj2 (proj2 (getToken_contract
                           admin (JStr "abc123") (JStr (Admin.key admin))
                           properties.incontactTokenUrl
                           (mkResponse 401 "Unauthorized") JNull))
                 eq_refl).
Defined.

(** C4 as it stands fails here: the body has both fields, the access
    token being the empty string, and [_getToken] fails. *)
Lemma getToken_rejects_empty_access_token :
  ok ok200 = true /\
  has_property empty_access_token "access_token" = true /\
  has_property empty_access_token "resource_server_base_uri" = true /\
  rejects (Admin._getToken admin (JStr "abc123") (JStr (Admin.key admin))
                           properties.incontactTokenUrl)
          [RFetch (inr ok200); RJson (inr empty_access_token)]
          (Error "Missing token and/or uri") /\
  (forall v, ~ resolves (Admin._getToken admin (JStr "abc123") (JStr (Admin.key admin))
                                         properties.incontactTokenUrl)
                        [RFetch (inr ok200); RJson (inr empty_access_token)] v).
Proof.
  repeat split. intros v H. discriminate H.
Qed.

(** The two cases of the transcription contract: the sample answer and
    [{results: []}]. *)
Lemma stt_contract_witness :
  resolves (Sentiment._stt (JStr "abc123") (JStr "UklGRg=="))
           [RFetch (inr ok200); RJson (inr sample_recognized)]
           (JStr "thank you for calling") /\
  chain_broken no_results /\
  exists e, rejects (Sentiment._stt (JStr "abc123") (JStr "UklGRg=="))
                    [RFetch (inr ok200); RJson (inr no_results)] e.
Proof.
  split; [| split].
  - apply (proj1 (stt_contract (JStr "abc123") (JStr "UklGRg==") ok200 sample_recognized
                               eq_refl)
                 (JObj [("alternatives", JArr [JObj [("transcript", JStr "thank you for calling")]])])
                 []
                 (JObj [("transcript", JStr "thank you for calling")])
                 []
                 "thank you for calling");
      try reflexivity.
    discriminate.
  - exact I.
  - exact (proj2 (stt_contract (JStr "abc123") (JStr "UklGRg==") ok200 no_results eq_refl) I).
Defined.

(** The two cases of the analysis contract: the sample score and a body
    without [documentSentiment]. *)
Lemma analyze_contract_witness :
  resolves (Sentiment._analyze (JStr "abc123") (JStr "thank you for calling"))
           [RFetch (inr ok200); RJson (inr sample_sentiment)]
           (JObj [("transcript", JStr "thank you for calling"); ("sentiment", sample_score)]) /\
  exists e, rejects (Sentiment._analyze (JStr "abc123") (JStr "thank you for calling"))
                    [RFetch (inr ok200); RJson (inr (JObj []))] e.
Proof.
  split.
  - exact (proj1 (proj1 (analyze_contract (JStr "abc123") (JStr "thank you for calling")
                                          ok200 sample_sentiment eq_refl)
                        sample_score eq_refl eq_refl)).
  - exact (proj2 (analyze_contract (JStr "abc123") (JStr "thank you for calling")
                                   ok200 (JObj []) eq_refl)
                 eq_refl).
Defined.

(** C6 as it stands fails here: the body has a [documentSentiment]
    field, with the value 0, and [_analyze] fails. *)
Lemma analyze_rejects_zero_sentiment :
  ok ok200 = true /\
  has_property zero_sentiment "documentSentiment" = true /\
  rejects (Sentiment._analyze (JStr "abc123") (JStr "thank you for calling"))
          [RFetch (inr ok200); RJson (inr zero_sentiment)]
          (Error "Invalid/missing result value") /\
  (forall v, ~ resolves (Sentiment._analyze (JStr "abc123") (JStr "thank you for calling"))
                        [RFetch (inr ok200); RJson (inr zero_sentiment)] v).
Proof.
  repeat split. intros v H. discriminate H.
Qed.

(** The sample job with the transcript write failing before the DELETE
    is sent. *)
Lemma failed_write_does_not_end_job_witness :
  exists c,
    exec (start (handler sample_body)) delete_follows_failed_write = Some c /\
    logged error (trace c) = ["contactId:abc123 _save - Error: socket hang up"] /\
    map method (requests (after_error (trace c))) = ["DELETE"] /\
    main c = Resolved tt.
Proof.
  destruct (failed_write_does_not_end_job
              (host := sample_host)
              (map byte_of_ascii (list_ascii_of_string "UklGRg==")) eq_refl)
    as (c & Hexec & Hlog & _ & Hdel & _ & _ & Hmain & _).
  exists c. repeat split; assumption.
Defined.

(** The sample job with three ways of failing: the recognizer finds
    nothing; the token endpoint answers 401; the audio write fails. *)
Lemma failed_stage_ends_job_witness :
  (exists c,
     exec (start (handler sample_body))
          (until_recognizer ok200 ok200 ok200 sample_token sample_files no_results) = Some c /\
     logged error (trace c)
     = ["contactId:abc123 _stt - Error: Invalid/missing result value";
        "contactId:abc123 process - Error: Invalid/missing result value";
        "contactId:abc123 webserver - Error: Invalid/missing result value"] /\
     writes (trace c) = [] /\
     filter is_delete (requests (trace c)) = [] /\
     background c = []) /\
  (exists c,
     exec (start (handler sample_body))
          (map Main [RFetch (inr (mkResponse 401 "Unauthorized"))]) = Some c /\
     requests (trace c) = [token_request admin properties.incontactTokenUrl] /\
     writes (trace c) = [] /\
     main c = Resolved tt /\
     background c = []) /\
  (exists c,
     exec (start (handler sample_body))
          (map Main [RFetch (inr ok200); RJson (inr sample_token);
                     RFetch (inr ok200); RJson (inr sample_files);
                     RFetch (inr ok200); RJson (inr sample_recognized);
                     RFetch (inr ok200); RJson (inr sample_sentiment);
                     RStream (Some (Error "socket hang up"))]) = Some c /\
     map fst (writes (trace c)) = ["abc123/abc123.wav"] /\
     filter is_delete (requests (trace c)) = [] /\
     main c = Resolved tt /\
     background c = []).
Proof.
  destruct (failed_stage_ends_job sample_body (JStr "abc123") (JStr "/rec/abc123.wav")
                                  eq_refl eq_refl)
    as (Hscenario & Hget & _ & Hupload & _).
  split; [| split].
  - destruct (Hscenario ok200 ok200 ok200 sample_token (JStr "t0k3n")
                        (JStr "https://api.incontact.example/")
                        sample_files sample_recording (JStr "UklGRg==") (JNum 8)
                        eq_refl eq_refl eq_refl eq_refl eq_refl eq_refl
                        eq_refl eq_refl eq_refl eq_refl eq_refl)
      as (c & Hexec & Hlog & Hw & Hd & _ & Hbg & _).
    exists c. repeat split; assumption.
  - eexists. split.
    + eapply (Hget [RFetch (inr (mkResponse 401 "Unauthorized"))]); reflexivity.
    + repeat split.
  - eexists. split.
    + eapply (Hupload [RFetch (inr ok200); RJson (inr sample_token);
                       RFetch (inr ok200); RJson (inr sample_files)]
                      [RFetch (inr ok200); RJson (inr sample_recognized);
                       RFetch (inr ok200); RJson (inr sample_sentiment)]
                      [RStream (Some (Error "socket hang up"))]);
        reflexivity.
    + repeat split.
Defined.

(** The sample job on the schedule [delete_overtakes_writes]. *)
Lemma delete_overtakes_persistence_witness :
  exists c,
    exec (start (handler sample_body)) delete_overtakes_writes = Some c /\
    delete_gated sample_blobs [] (trace c) = false /\
    map method (filter is_delete (requests (trace c))) = ["DELETE"] /\
    logged error (trace c)
    = ["contactId:abc123 _save - Error: socket hang up";
       "contactId:abc123 _save - Error: socket hang up"].
Proof.
  destruct (delete_overtakes_persistence
              (host := sample_host)
              (map byte_of_ascii (list_ascii_of_string "UklGRg==")) eq_refl)
    as (c & Hexec & Hgate & _ & _ & Hdel & Hlog & _).
  exists c. repeat split; assumption.
Defined.

(** The extra properties on the sample job. *)

Lemma delete_only_after_audio_written_witness :
  exists c,
    exec (start (handler sample_body)) delete_overtakes_writes = Some c /\
    delete_gated ["abc123/abc123.wav"] [] (trace c) = true.
Proof.
  eexists. split; [vm_compute; reflexivity |].
  match goal with
  | |- delete_gated _ _ (trace ?c) = true =>
      exact (delete_only_after_audio_written (host := sample_host) sample_body delete_overtakes_writes c
                                             eq_refl eq_refl)
  end.
Defined.

Lemma stages_in_order_witness :
  exists c,
    exec (start (handler sample_body)) (sample_whole_job ok200) = Some c /\
    length (writes (trace c)) = 3 /\
    gate_ok is_write_op (answered_ok (is_request_to properties.gcpSntUrl))
            false (trace c) = true /\
    gate_ok is_file_request (answered_ok (is_request_to properties.incontactTokenUrl))
            false (trace c) = true.
Proof.
  eexists. split; [vm_compute; reflexivity |]. split; [reflexivity |].
  match goal with
  | |- gate_ok _ _ _ (trace ?c) = true /\ _ =>
      destruct (stages_in_order (host := sample_host) sample_body (sample_whole_job ok200) c eq_refl eq_refl)
        as (Hfile & _ & _ & Hwrite)
  end.
  split; assumption.
Defined.

Lemma handler_chain_never_rejects_witness :
  exists c,
    exec (start (handler sample_body))
         (map Main [RFetch (inl (Error "connect ECONNREFUSED"))]) = Some c /\
    main c = Resolved tt /\
    forall e, main c <> Rejected e.
Proof.
  eexists. split; [vm_compute; reflexivity |]. split; [reflexivity |].
  match goal with
  | |- forall e, main ?c <> _ =>
      exact (handler_chain_never_rejects (host := sample_host)
               sample_body (map Main [RFetch (inl (Error "connect ECONNREFUSED"))]) c
               eq_refl eq_refl)
  end.
Defined.

Lemma removeFile_contract_witness :
  (exists c,
     run_with (Admin._removeFile (JStr "abc123") (JStr "t0k3n")
                                 (JStr "https://api.incontact.example/")
                                 (JStr "/rec/abc123.wav"))
              [RFetch (inr ok200)] = Some c /\
     main c = Resolved (JObj [("text", JStr "OK")])) /\
  (exists c,
     run_with (Admin._removeFile (JStr "abc123") (JStr "t0k3n")
                                 (JStr "https://api.incontact.example/")
                                 (JStr "/rec/abc123.wav"))
              [RFetch (inr not_found)] = Some c /\
     main c = Rejected (Error "Not Found") /\
     logged error (trace c) = ["contactId:abc123 _removeFile - Error: Not Found"]).
Proof.
  split.
  - destruct (proj1 (proj2 (removeFile_contract (host := sample_host)
                              (JStr "abc123") (JStr "t0k3n")
                              (JStr "https://api.incontact.example/")
                              (JStr "/rec/abc123.wav") ok200)) eq_refl)
      as (c & H & Hm & _).
    exists c. split; assumption.
  - destruct (proj1 (proj2 (proj2 (removeFile_contract (host := sample_host)
                                     (JStr "abc123") (JStr "t0k3n")
                                     (JStr "https://api.incontact.example/")
                                     (JStr "/rec/abc123.wav") not_found))) eq_refl)
      as (c & H & Hm & _ & _ & Hl).
    exists c. repeat split; assumption.
Defined.

Lemma failed_status_skips_body_witness :
  exists c,
    run_with (Sentiment._stt (JStr "abc123") (JStr "UklGRg==")) [RFetch (inr not_found)]
    = Some c /\
    main c = Rejected (Error "Response status: 404") /\
    reads_body (trace c) = false /\
    logged error (trace c) = ["contactId:abc123 _stt - Error: Response status: 404"].
Proof.
  destruct (failed_status_skips_body (host := sample_host)
              admin (JStr "abc123") (JStr "t0k3n") (JStr "https://api.incontact.example/")
              (JStr "/rec/abc123.wav") (JStr "UklGRg==") (JStr "hello")
              properties.incontactTokenUrl not_found eq_refl)
    as (_ & _ & (c & H & Hm & Hr & _ & Hl) & _).
  exists c. repeat split; assumption.
Defined.

Lemma wrappers_pass_errors_on_witness :
  rejects (Admin._getFile (JStr "abc123") (JStr "t0k3n")
                          (JStr "https://api.incontact.example/") (JStr "/rec/abc123.wav"))
          [RFetch (inr ok200); RJson (inl (mkErr "FetchError" "invalid json response body"))]
          (mkErr "FetchError" "invalid json response body").
Proof.
  exact (proj1 (proj2 (proj2 (wrappers_pass_errors_on (host := sample_host)
                                admin (JStr "abc123") (JStr "t0k3n")
                                (JStr "https://api.incontact.example/")
                                (JStr "/rec/abc123.wav") (JStr "UklGRg==") (JStr "hello")
                                properties.incontactTokenUrl ok200
                                (mkErr "FetchError" "invalid json response body"))
                             eq_refl))).
Defined.

Lemma get_uses_the_token_witness :
  exists c,
    run_with (Admin.get admin (JStr "abc123") (JStr "/rec/abc123.wav"))
             [RFetch (inr ok200); RJson (inr sample_token);
              RFetch (inr ok200); RJson (inr sample_files)] = Some c /\
    main c = Resolved sample_recording /\
    map url (requests (trace c))
    = ["https://api.incontact.com/InContactAuthorizationServer/Token";
       "https://api.incontact.example/services/v11.0/files?fileName=uri(/rec/abc123.wav)"].
Proof.
  destruct (get_uses_the_token (host := sample_host)
              (JStr "abc123") (JStr "/rec/abc123.wav") ok200 ok200 sample_token
              (JStr "t0k3n") (JStr "https://api.incontact.example/")
              sample_files sample_recording (JStr "UklGRg==")
              eq_refl eq_refl eq_refl eq_refl eq_refl eq_refl eq_refl eq_refl eq_refl)
    as (c & H & Hm & Hr & _); try discriminate.
  exists c. split; [exact H |]. split; [exact Hm |]. rewrite Hr. reflexivity.
Defined.

Lemma remove_uses_a_fresh_token_witness :
  exists c,
    run_with (Admin.remove admin (JStr "abc123") (JStr "/rec/abc123.wav"))
             [RFetch (inr ok200); RJson (inr sample_token); RFetch (inr ok200)] = Some c /\
    main c = Resolved (JObj [("text", JStr "OK")]) /\
    map method (requests (trace c)) = ["POST"; "DELETE"].
Proof.
  destruct (remove_uses_a_fresh_token (host := sample_host)
              (JStr "abc123") (JStr "/rec/abc123.wav") ok200 ok200 sample_token
              (JStr "t0k3n") (JStr "https://api.incontact.example/")
              eq_refl eq_refl eq_refl eq_refl eq_refl eq_refl)
    as (c & H & Hm & Hr & _).
  exists c. split; [exact H |]. split; [exact Hm |]. rewrite Hr. reflexivity.
Defined.

Lemma process_analyses_the_transcript_witness :
  exists c,
    run_with (Sentiment.process (JStr "abc123") (JStr "UklGRg=="))
             [RFetch (inr ok200); RJson (inr sample_recognized);
              RFetch (inr ok200); RJson (inr sample_sentiment)] = Some c /\
    main c = Resolved (JObj [("transcript", JStr "thank you for calling");
                             ("sentiment", sample_score)]) /\
    requests (trace c)
    = [stt_request (JStr "UklGRg=="); snt_request (JStr "thank you for calling")].
Proof.
  destruct (process_analyses_the_transcript (host := sample_host)
              (JStr "abc123") (JStr "UklGRg==") ok200 ok200 sample_recognized
              (JObj [("alternatives", JArr [JObj [("transcript", JStr "thank you for calling")]])])
              (JObj [("transcript", JStr "thank you for calling")])
              sample_sentiment sample_score [] [] "thank you for calling"
              eq_refl eq_refl eq_refl eq_refl)
    as (c & H & Hm & Hr & _); try reflexivity; try discriminate.
  exists c. repeat split; assumption.
Defined.

Lemma unreadable_audio_ends_job_witness :
  exists c,
    exec (start (handler sample_body))
         (map Main (until_analysis ok200 ok200 ok200 ok200
                                   sample_token numeric_files sample_recognized
                                   sample_sentiment)) = Some c /\
    writes (trace c) = [] /\
    map method (requests (trace c)) = ["POST"; "GET"; "POST"; "POST"] /\
    main c = Resolved tt.
Proof.
  assert (Hs : "thank you for calling" <> "") by discriminate.
  destruct (unreadable_audio_ends_job
              (host := sample_host) sample_body (JStr "abc123") (JStr "/rec/abc123.wav")
              eq_refl eq_refl ok200 ok200 ok200 ok200
              sample_token (JStr "t0k3n") (JStr "https://api.incontact.example/")
              numeric_files numeric_recording (JNum 7) JUndef
              sample_recognized
              (JObj [("alternatives", JArr [JObj [("transcript", JStr "thank you for calling")]])])
              (JObj [("transcript", JStr "thank you for calling")])
              sample_sentiment sample_score [] [] "thank you for calling"
              eq_refl eq_refl eq_refl eq_refl eq_refl eq_refl eq_refl eq_refl eq_refl
              eq_refl eq_refl eq_refl eq_refl eq_refl Hs eq_refl eq_refl eq_refl
              (TypeError "The first argument must be one of type string, Buffer, ArrayBuffer, Array, or Array-like Object.")
              eq_refl)
    as (c & H & Hr & Hw & _ & Hm & _).
  exists c. split; [exact H |]. split; [exact Hw |]. split; [rewrite Hr; reflexivity | exact Hm].
Defined.

Lemma whole_job_succeeds_witness :
  exists c,
    exec (start (handler sample_body)) (sample_whole_job ok200) = Some c /\
    map fst (writes (trace c)) = sample_blobs /\
    map method (requests (trace c)) = ["POST"; "GET"; "POST"; "POST"; "POST"; "DELETE"] /\
    logged error (trace c) = [] /\
    background c = [].
Proof.
  assert (Hs : "thank you for calling" <> "") by discriminate.
  destruct (whole_job_succeeds
              (host := sample_host) sample_body (JStr "abc123") (JStr "/rec/abc123.wav")
              eq_refl eq_refl ok200 ok200 ok200 ok200
              sample_token (JStr "t0k3n") (JStr "https://api.incontact.example/")
              sample_files sample_recording (JStr "UklGRg==") (JNum 8)
              sample_recognized
              (JObj [("alternatives", JArr [JObj [("transcript", JStr "thank you for calling")]])])
              (JObj [("transcript", JStr "thank you for calling")])
              sample_sentiment sample_score [] [] "thank you for calling"
              (map byte_of_ascii (list_ascii_of_string "UklGRg=="))
              eq_refl eq_refl eq_refl eq_refl eq_refl eq_refl eq_refl eq_refl eq_refl
              eq_refl eq_refl eq_refl eq_refl eq_refl Hs eq_refl eq_refl eq_refl
              ok200 ok200 sample_token (JStr "t0k3n") (JStr "https://api.incontact.example/")
              eq_refl eq_refl eq_refl eq_refl eq_refl eq_refl eq_refl)
    as (c & H & Hw & Hr & Hl & _ & _ & Hb).
  exists c. split; [exact H |].
  split; [rewrite Hw; reflexivity |].
  split; [rewrite Hr; reflexivity |].
  split; assumption.
Defined.

Lemma failed_delete_is_not_reported_witness :
  exists c,
    exec (start (handler sample_body)) (sample_whole_job not_found) = Some c /\
    logged error (trace c)
    = ["contactId:abc123 _removeFile - Error: Not Found";
       "contactId:abc123 remove - Error: Not Found"] /\
    In (Unhandled (Error "Not Found")) (trace c).
Proof.
  assert (Hs : "thank you for calling" <> "") by discriminate.
  destruct (failed_delete_is_not_reported
              (host := sample_host) sample_body (JStr "abc123") (JStr "/rec/abc123.wav")
              eq_refl eq_refl ok200 ok200 ok200 ok200
              sample_token (JStr "t0k3n") (JStr "https://api.incontact.example/")
              sample_files sample_recording (JStr "UklGRg==") (JNum 8)
              sample_recognized
              (JObj [("alternatives", JArr [JObj [("transcript", JStr "thank you for calling")]])])
              (JObj [("transcript", JStr "thank you for calling")])
              sample_sentiment sample_score [] [] "thank you for calling"
              (map byte_of_ascii (list_ascii_of_string "UklGRg=="))
              eq_refl eq_refl eq_refl eq_refl eq_refl eq_refl eq_refl eq_refl eq_refl
              eq_refl eq_refl eq_refl eq_refl eq_refl Hs eq_refl eq_refl eq_refl
              ok200 not_found sample_token (JStr "t0k3n") (JStr "https://api.incontact.example/")
              eq_refl eq_refl eq_refl eq_refl eq_refl eq_refl eq_refl)
    as (c & H & Hl & Hu & _).
  exists c. split; [exact H |]. split; [exact Hl | exact Hu].
Defined.

Lemma token_error_logged_by_each_layer_witness :
  exists c,
    exec (start (handler sample_body))
         (map Main [RFetch (inr (mkResponse 401 "Unauthorized"))]) = Some c /\
    logged error (trace c)
    = ["contactId:abc123 _getToken - Error: Response status: 401";
       "contactId:abc123 get - Error: Response status: 401";
       "contactId:abc123 webserver - Error: Response status: 401"].
Proof.
  edestruct (token_error_logged_by_each_layer
               (host := sample_host) sample_body (JStr "abc123") (JStr "/rec/abc123.wav")
               eq_refl eq_refl [RFetch (inr (mkResponse 401 "Unauthorized"))])
    as (c & H & Hl & _).
  - vm_compute. reflexivity.
  - reflexivity.
  - exists c. split; [exact H |]. rewrite Hl. reflexivity.
Defined.

Lemma stt_error_logged_by_each_layer_witness :
  exists c,
    exec (start (handler sample_body))
         (map Main [RFetch (inr ok200); RJson (inr sample_token);
                    RFetch (inr ok200); RJson (inr sample_files);
                    RFetch (inl (Error "socket hang up"))]) = Some c /\
    logged error (trace c)
    = ["contactId:abc123 _stt - Error: socket hang up";
       "contactId:abc123 process - Error: socket hang up";
       "contactId:abc123 webserver - Error: socket hang up"].
Proof.
  edestruct (stt_error_logged_by_each_layer
               (host := sample_host) sample_body (JStr "abc123") (JStr "/rec/abc123.wav")
               eq_refl eq_refl
               [RFetch (inr ok200); RJson (inr sample_token);
                RFetch (inr ok200); RJson (inr sample_files)]
               [RFetch (inl (Error "socket hang up"))])
    as (c & H & Hl & _).
  - vm_compute. reflexivity.
  - reflexivity.
  - reflexivity.
  - vm_compute. reflexivity.
  - reflexivity.
  - exists c. split; [exact H |]. rewrite Hl. reflexivity.
Defined.

Lemma falsy_body_witness :
  rejects (Sentiment._stt (JStr "abc123") (JStr "UklGRg=="))
          [RFetch (inr ok200); RJson (inr JNull)]
          (TypeError "Cannot read property 'results' of null") /\
  rejects (Sentiment._analyze (JStr "abc123") (JStr "hello"))
          [RFetch (inr ok200); RJson (inr (JBool false))]
          (Error "Invalid/missing result value").
Proof.
  split.
  - refine (proj1 (proj1 (proj2 (proj2 (falsy_body
                                (host := sample_host) admin (JStr "abc123") (JStr "t0k3n")
                                (JStr "https://api.incontact.example/")
                                (JStr "/rec/abc123.wav") (JStr "UklGRg==") (JStr "hello")
                                properties.incontactTokenUrl ok200 JNull eq_refl eq_refl _)))
                         eq_refl)).
    discriminate.
  - refine (proj2 (proj2 (proj2 (proj2 (falsy_body
                                (host := sample_host) admin (JStr "abc123") (JStr "t0k3n")
                                (JStr "https://api.incontact.example/")
                                (JStr "/rec/abc123.wav") (JStr "UklGRg==") (JStr "hello")
                                properties.incontactTokenUrl ok200 (JBool false)
                                eq_refl eq_refl _)))
                         _)); discriminate.
Defined.
